(** * Hand-gesture whiteboard: the gesture-to-stroke pipeline of [src/App.js]

    A shallow embedding of the stateful core of the React component [App]:
    the smoothing filter ([applySmoothing]), the stroke commit
    ([drawOnCanvas]), the cursor overlay ([drawCursor]), the per-frame
    handler ([handleMediaPipeResults]) with its debounce timer, and the
    canvas clear ([clearDrawingCanvas]).

    Numbers.  JavaScript numbers are IEEE doubles; this development reads
    every arithmetic expression of the source over the real numbers [R]
    ([Math.sqrt] is [sqrt], [Math.pow(a, 2)] is [a ^ 2]), so rounding is
    not modelled.

    State.  Every [useRef] cell of the component is a field of [State]
    under its source name.  The drawing canvas and the cursor canvas are
    fields as well: a canvas is the list of paint operations applied since
    it was last cleared in full (the oldest first).  The browser's timer
    queue is the field [pendingTimeouts].

    Hands.  MediaPipe delivers 21 landmarks per hand; the source only ever
    indexes them ([landmarks[0]], [landmarks[4]], ...), so a hand is its
    lookup function from index to landmark. *)

From Stdlib Require Import String Reals Lra List Bool Arith Lia.
Import ListNotations.

Open Scope R_scope.

(** ** Data *)

(** A JS object [{ x, y }] in canvas pixels. *)
Record Point : Set := mkPoint { px : R; py : R }.

(** A MediaPipe landmark [{ x, y, z }], normalised to the video frame. *)
Record Landmark : Set := mkLandmark { lx : R; ly : R; lz : R }.

(** [landmarks[i]] *)
Definition Hand : Set := nat -> Landmark.

(** The React state read by the closures of one render:
    [brushSize], [brushColor], [smoothingLevel], [eraserMode]. *)
Record Settings : Set := mkSettings {
  brushSize : R;
  brushColor : string;
  smoothingLevel : nat;
  eraserMode : bool
}.

(** [drawingCanvas.width] and [drawingCanvas.height]. *)
Record CanvasSize : Set := mkCanvasSize { width : R; height : R }.

Inductive CompositeOperation : Set := SourceOver | DestinationOut.

(** The properties of the 2D context that [drawOnCanvas] sets before it
    paints (line cap and line join are always ['round']). *)
Record ContextStyle : Set := mkContextStyle {
  lineWidth : R;
  strokeStyle : string;
  fillStyle : string;
  globalCompositeOperation : CompositeOperation
}.

(** What [drawOnCanvas] paints on the drawing canvas. *)
Inductive InkOp : Set :=
| Dot (center : Point) (radius : R) (ctx : ContextStyle)
    (* beginPath; arc(center, radius, 0, 2 pi); fill *)
| Segment (from to : Point) (ctx : ContextStyle).
    (* beginPath; moveTo(from); lineTo(to); stroke *)

(** What [drawCursor] paints on the cursor canvas. *)
Inductive CursorOp : Set :=
| Ring (center : Point) (radius : R) (fill stroke : string) (strokeWidth : R)
| CenterDot (center : Point) (radius : R) (fill : string).

(** The mutable state of the component. A pending timeout is a pair
    (id, due time in ms); all of them run the same callback, [stopDrawing]
    below, since the source has a single [setTimeout] call. *)
Record State : Set := mkState {
  lastPositionRef : option Point;
  isDrawingRef : bool;
  smoothingPointsRef : list Point;
  drawingStateTimeoutRef : option nat;
  lastDistanceRef : R;
  isNewStrokeRef : bool;
  lastSmoothedPositionRef : option Point;
  velocityRef : Point;
  isDrawing : bool;                    (* React state, [setIsDrawing] *)
  drawingCanvas : list InkOp;          (* content of [canvasDrawingRef] *)
  cursorCanvas : list CursorOp;        (* content of [cursorCanvasRef] *)
  pendingTimeouts : list (nat * nat);
  nextTimeoutId : nat;
  clock : nat
}.

(** The state of a freshly mounted component (lines 12-28). *)
Definition initialState : State :=
  mkState None false [] None 0 true None (mkPoint 0 0) false [] [] [] 1%nat 0%nat.

(** *** Assignments to one cell *)

Definition set_lastPositionRef (v : option Point) (s : State) : State :=
  mkState v (isDrawingRef s) (smoothingPointsRef s) (drawingStateTimeoutRef s)
    (lastDistanceRef s) (isNewStrokeRef s) (lastSmoothedPositionRef s) (velocityRef s)
    (isDrawing s) (drawingCanvas s) (cursorCanvas s) (pendingTimeouts s)
    (nextTimeoutId s) (clock s).

Definition set_isDrawingRef (v : bool) (s : State) : State :=
  mkState (lastPositionRef s) v (smoothingPointsRef s) (drawingStateTimeoutRef s)
    (lastDistanceRef s) (isNewStrokeRef s) (lastSmoothedPositionRef s) (velocityRef s)
    (isDrawing s) (drawingCanvas s) (cursorCanvas s) (pendingTimeouts s)
    (nextTimeoutId s) (clock s).

Definition set_smoothingPointsRef (v : list Point) (s : State) : State :=
  mkState (lastPositionRef s) (isDrawingRef s) v (drawingStateTimeoutRef s)
    (lastDistanceRef s) (isNewStrokeRef s) (lastSmoothedPositionRef s) (velocityRef s)
    (isDrawing s) (drawingCanvas s) (cursorCanvas s) (pendingTimeouts s)
    (nextTimeoutId s) (clock s).

Definition set_drawingStateTimeoutRef (v : option nat) (s : State) : State :=
  mkState (lastPositionRef s) (isDrawingRef s) (smoothingPointsRef s) v
    (lastDistanceRef s) (isNewStrokeRef s) (lastSmoothedPositionRef s) (velocityRef s)
    (isDrawing s) (drawingCanvas s) (cursorCanvas s) (pendingTimeouts s)
    (nextTimeoutId s) (clock s).

Definition set_lastDistanceRef (v : R) (s : State) : State :=
  mkState (lastPositionRef s) (isDrawingRef s) (smoothingPointsRef s)
    (drawingStateTimeoutRef s) v (isNewStrokeRef s) (lastSmoothedPositionRef s)
    (velocityRef s) (isDrawing s) (drawingCanvas s) (cursorCanvas s)
    (pendingTimeouts s) (nextTimeoutId s) (clock s).

Definition set_isNewStrokeRef (v : bool) (s : State) : State :=
  mkState (lastPositionRef s) (isDrawingRef s) (smoothingPointsRef s)
    (drawingStateTimeoutRef s) (lastDistanceRef s) v (lastSmoothedPositionRef s)
    (velocityRef s) (isDrawing s) (drawingCanvas s) (cursorCanvas s)
    (pendingTimeouts s) (nextTimeoutId s) (clock s).

Definition set_lastSmoothedPositionRef (v : option Point) (s : State) : State :=
  mkState (lastPositionRef s) (isDrawingRef s) (smoothingPointsRef s)
    (drawingStateTimeoutRef s) (lastDistanceRef s) (isNewStrokeRef s) v
    (velocityRef s) (isDrawing s) (drawingCanvas s) (cursorCanvas s)
    (pendingTimeouts s) (nextTimeoutId s) (clock s).

Definition set_velocityRef (v : Point) (s : State) : State :=
  mkState (lastPositionRef s) (isDrawingRef s) (smoothingPointsRef s)
    (drawingStateTimeoutRef s) (lastDistanceRef s) (isNewStrokeRef s)
    (lastSmoothedPositionRef s) v (isDrawing s) (drawingCanvas s) (cursorCanvas s)
    (pendingTimeouts s) (nextTimeoutId s) (clock s).

Definition setIsDrawing (v : bool) (s : State) : State :=
  mkState (lastPositionRef s) (isDrawingRef s) (smoothingPointsRef s)
    (drawingStateTimeoutRef s) (lastDistanceRef s) (isNewStrokeRef s)
    (lastSmoothedPositionRef s) (velocityRef s) v (drawingCanvas s) (cursorCanvas s)
    (pendingTimeouts s) (nextTimeoutId s) (clock s).

Definition set_drawingCanvas (v : list InkOp) (s : State) : State :=
  mkState (lastPositionRef s) (isDrawingRef s) (smoothingPointsRef s)
    (drawingStateTimeoutRef s) (lastDistanceRef s) (isNewStrokeRef s)
    (lastSmoothedPositionRef s) (velocityRef s) (isDrawing s) v (cursorCanvas s)
    (pendingTimeouts s) (nextTimeoutId s) (clock s).

Definition set_cursorCanvas (v : list CursorOp) (s : State) : State :=
  mkState (lastPositionRef s) (isDrawingRef s) (smoothingPointsRef s)
    (drawingStateTimeoutRef s) (lastDistanceRef s) (isNewStrokeRef s)
    (lastSmoothedPositionRef s) (velocityRef s) (isDrawing s) (drawingCanvas s) v
    (pendingTimeouts s) (nextTimeoutId s) (clock s).

Definition set_pendingTimeouts (v : list (nat * nat)) (s : State) : State :=
  mkState (lastPositionRef s) (isDrawingRef s) (smoothingPointsRef s)
    (drawingStateTimeoutRef s) (lastDistanceRef s) (isNewStrokeRef s)
    (lastSmoothedPositionRef s) (velocityRef s) (isDrawing s) (drawingCanvas s)
    (cursorCanvas s) v (nextTimeoutId s) (clock s).

Definition set_nextTimeoutId (v : nat) (s : State) : State :=
  mkState (lastPositionRef s) (isDrawingRef s) (smoothingPointsRef s)
    (drawingStateTimeoutRef s) (lastDistanceRef s) (isNewStrokeRef s)
    (lastSmoothedPositionRef s) (velocityRef s) (isDrawing s) (drawingCanvas s)
    (cursorCanvas s) (pendingTimeouts s) v (clock s).

Definition set_clock (v : nat) (s : State) : State :=
  mkState (lastPositionRef s) (isDrawingRef s) (smoothingPointsRef s)
    (drawingStateTimeoutRef s) (lastDistanceRef s) (isNewStrokeRef s)
    (lastSmoothedPositionRef s) (velocityRef s) (isDrawing s) (drawingCanvas s)
    (cursorCanvas s) (pendingTimeouts s) (nextTimeoutId s) v.

(** [a < b] on JS numbers, as a boolean. *)
Definition Rltb (a b : R) : bool := if Rlt_dec a b then true else false.

(** ** The smoothing filter (lines 49-83) *)

(** [points.reduce((sum, point) => sum + point.x, 0)] and its [y] twin. *)
Definition sumX (points : list Point) : R :=
  fold_left (fun sum point => sum + px point) points 0.

Definition sumY (points : list Point) : R :=
  fold_left (fun sum point => sum + py point) points 0.

(** The buffer after [push({ x, y })] and the conditional [shift()]. *)
Definition pushBounded (level : nat) (points : list Point) (p : Point) : list Point :=
  let pushed := points ++ [p] in
  if (level <? length pushed)%nat then tl pushed else pushed.

Definition applySmoothing (cfg : Settings) (x y : R) (s : State) : Point * State :=
  let s1 := set_smoothingPointsRef
              (pushBounded (smoothingLevel cfg) (smoothingPointsRef s) (mkPoint x y)) s in
  let avgX := sumX (smoothingPointsRef s1) / INR (length (smoothingPointsRef s1)) in
  let avgY := sumY (smoothingPointsRef s1) / INR (length (smoothingPointsRef s1)) in
  match lastSmoothedPositionRef s1 with
  | Some last =>
      let deltaX := avgX - px last in
      let deltaY := avgY - py last in
      let s2 := set_velocityRef
                  (mkPoint (deltaX * 0.3 + px (velocityRef s1) * 0.7)
                           (deltaY * 0.3 + py (velocityRef s1) * 0.7)) s1 in
      let smoothedX := avgX + px (velocityRef s2) * 0.2 in
      let smoothedY := avgY + py (velocityRef s2) * 0.2 in
      (mkPoint smoothedX smoothedY,
       set_lastSmoothedPositionRef (Some (mkPoint smoothedX smoothedY)) s2)
  | None =>
      (mkPoint avgX avgY, set_lastSmoothedPositionRef (Some (mkPoint avgX avgY)) s1)
  end.

(** ** Committing a point to the drawing canvas (lines 86-142) *)

Definition contextFor (cfg : Settings) : ContextStyle :=
  mkContextStyle
    (if eraserMode cfg then 20 else brushSize cfg)
    (if eraserMode cfg then "#000000"%string else brushColor cfg)
    (if eraserMode cfg then "#000000"%string else brushColor cfg)
    (if eraserMode cfg then DestinationOut else SourceOver).

(** The radius of the dot: [eraserMode ? 10 : brushSize/2]. *)
Definition dotRadius (cfg : Settings) : R :=
  if eraserMode cfg then 10 else brushSize cfg / 2.

Definition paint (op : InkOp) (s : State) : State :=
  set_drawingCanvas (drawingCanvas s ++ [op]) s.

Definition drawOnCanvas (cfg : Settings) (x y : R) (s : State) : State :=
  let (smoothedPoint, s1) := applySmoothing cfg x y s in
  let ctx := contextFor cfg in
  let dot := Dot smoothedPoint (dotRadius cfg) ctx in
  let s2 :=
    if isNewStrokeRef s1 then
      set_isNewStrokeRef false (paint dot s1)
    else
      match lastPositionRef s1 with
      | Some last =>
          if isDrawingRef s1 then paint (Segment last smoothedPoint ctx) s1
          else set_isNewStrokeRef false (paint dot s1)
      | None => set_isNewStrokeRef false (paint dot s1)
      end in
  set_lastPositionRef (Some smoothedPoint) s2.

(** ** The cursor overlay (lines 145-174) *)

(** Assigning [cursorCanvas.width] and calling [clearRect] over the whole
    canvas both empty it; what is painted afterwards is all it holds. *)
Definition drawCursor (cfg : Settings) (x y : R) (isDrawing : bool) (s : State) : State :=
  let cleared := set_cursorCanvas [] s in
  if negb isDrawing then
    set_cursorCanvas
      [ Ring (mkPoint x y) (if eraserMode cfg then 20 else 15)
          (if eraserMode cfg then "rgba(255, 255, 255, 0.3)"%string
           else "rgba(200, 200, 200, 0.3)"%string)
          "#ffffff"%string 2;
        CenterDot (mkPoint x y) 3 "#ffffff"%string ]
      cleared
  else cleared.

(** ** Clearing the drawing canvas (lines 347-357) *)

Definition clearDrawingCanvas (s : State) : State :=
  set_isNewStrokeRef true
    (set_smoothingPointsRef []
       (set_isDrawingRef false
          (set_lastPositionRef None
             (set_drawingCanvas [] s)))).

(** ** Timers *)

(** [clearTimeout(id)]: an id that is not pending is ignored. *)
Definition clearTimeout (id : nat) (s : State) : State :=
  set_pendingTimeouts
    (filter (fun t => negb (fst t =? id)%nat) (pendingTimeouts s)) s.

(** [setTimeout(callback, delay)]: a fresh positive id, due [delay] ms from now. *)
Definition setTimeout (delay : nat) (s : State) : nat * State :=
  let id := nextTimeoutId s in
  (id,
   set_nextTimeoutId (S id)
     (set_pendingTimeouts (pendingTimeouts s ++ [(id, (clock s + delay)%nat)]) s)).

(** The callback given to [setTimeout] (lines 258-266). *)
Definition stopDrawing (s : State) : State :=
  set_velocityRef (mkPoint 0 0)
    (set_lastSmoothedPositionRef None
       (setIsDrawing false
          (set_isNewStrokeRef true
             (set_smoothingPointsRef []
                (set_isDrawingRef false
                   (set_lastPositionRef None s)))))).

(** [if (drawingStateTimeoutRef.current) clearTimeout(...)] *)
Definition clearExistingTimeout (s : State) : State :=
  match drawingStateTimeoutRef s with
  | Some id => clearTimeout id s
  | None => s
  end.

(** ** The per-hand body of [handleMediaPipeResults] (lines 209-281) *)

(** Mirrored canvas coordinates of a landmark (lines 211-212, 219-220). *)
Definition canvasX (size : CanvasSize) (lm : Landmark) : R := (1 - lx lm) * width size.
Definition canvasY (size : CanvasSize) (lm : Landmark) : R := ly lm * height size.

(** The constant [distance] of line 223. *)
Definition distance (size : CanvasSize) (landmarks : Hand) : R :=
  let x := canvasX size (landmarks 8%nat) in
  let y := canvasY size (landmarks 8%nat) in
  let thumbX := canvasX size (landmarks 4%nat) in
  let thumbY := canvasY size (landmarks 4%nat) in
  sqrt ((thumbX - x) ^ 2 + (thumbY - y) ^ 2).

(** The condition of line 229. *)
Definition isDrawGesture (size : CanvasSize) (landmarks : Hand) : bool :=
  Rltb (distance size landmarks) 40.

(** The loop of lines 271-277: [for (let i = 8; i <= 20; i += 4)], leaving
    with [false] at the first fingertip above the wrist.  [fuel] bounds the
    number of iterations; four are ever needed. *)
Fixpoint fistLoop (landmarks : Hand) (fuel i : nat) : bool :=
  match fuel with
  | O => true
  | S fuel' =>
      if (i <=? 20)%nat then
        if Rltb (ly (landmarks i)) (ly (landmarks 0%nat)) then false
        else fistLoop landmarks fuel' (i + 4)%nat
      else true
  end.

Definition isFist (landmarks : Hand) : bool := fistLoop landmarks 4%nat 8%nat.

(** Lines 231-243: the start of a stroke. *)
Definition startDrawing (s : State) : State :=
  setIsDrawing true
    (set_isNewStrokeRef true
       (set_smoothingPointsRef []
          (set_isDrawingRef true
             (set_lastPositionRef None
                (clearExistingTimeout s))))).

(** Lines 251-267: (re)scheduling the stop. *)
Definition scheduleStop (s : State) : State :=
  let (id, s1) := setTimeout 30 (clearExistingTimeout s) in
  set_drawingStateTimeoutRef (Some id) s1.

(** Lines 229-268. *)
Definition switchState (cfg : Settings) (draw : bool) (x y : R) (s : State) : State :=
  if draw then
    let s1 := if negb (isDrawingRef s) then startDrawing s else s in
    if isDrawingRef s1 then drawOnCanvas cfg x y s1 else s1
  else
    if isDrawingRef s then scheduleStop s else s.

Definition handleHand (size : CanvasSize) (cfg : Settings) (s : State) (landmarks : Hand)
  : State :=
  let x := canvasX size (landmarks 8%nat) in
  let y := canvasY size (landmarks 8%nat) in
  let s1 := drawCursor cfg x y (isDrawingRef s) s in
  let s2 := set_lastDistanceRef (distance size landmarks) s1 in
  let s3 := switchState cfg (isDrawGesture size landmarks) x y s2 in
  if isFist landmarks then clearDrawingCanvas s3 else s3.

(** [handleMediaPipeResults(results)] once the canvases and the video are
    mounted: [multiHandLandmarks] is the list of detected hands (empty when
    the detector reports none). *)
Definition handleMediaPipeResults (size : CanvasSize) (cfg : Settings)
  (s : State) (multiHandLandmarks : list Hand) : State :=
  fold_left (handleHand size cfg) multiHandLandmarks s.

(** ** The event loop *)

(** Runs the callback of every timeout of [pending] that is due at [t]. *)
Fixpoint fireDue (t : nat) (pending : list (nat * nat)) (s : State) : State :=
  match pending with
  | [] => s
  | (id, due) :: rest =>
      if (due <=? t)%nat then fireDue t rest (stopDrawing (clearTimeout id s))
      else fireDue t rest s
  end.

(** Time passes until [t]: due timeouts fire, oldest first. *)
Definition advance (t : nat) (s : State) : State :=
  set_clock (Nat.max (clock s) t) (fireDue t (pendingTimeouts s) s).

(** What the browser delivers to the component, each with its time in ms. *)
Inductive Event : Type :=
| OnResults (t : nat) (multiHandLandmarks : list Hand)  (* a detection result *)
| ClearCanvasClick (t : nat)                            (* the Clear Canvas button *)
| Wait (t : nat).                                       (* nothing until [t] *)

Definition step (size : CanvasSize) (cfg : Settings) (s : State) (e : Event) : State :=
  match e with
  | OnResults t hands => handleMediaPipeResults size cfg (advance t s) hands
  | ClearCanvasClick t => clearDrawingCanvas (advance t s)
  | Wait t => advance t s
  end.

Definition run (size : CanvasSize) (cfg : Settings) (events : list Event) (s : State)
  : State :=
  fold_left (step size cfg) events s.

(** ** The Test Draw button (lines 325-344) *)

(** One line from (50, 50) to (200, 200) in the brush's colour and size,
    always painted over, whatever the eraser mode. *)
Definition testDraw (cfg : Settings) (s : State) : State :=
  paint (Segment (mkPoint 50 50) (mkPoint 200 200)
           (mkContextStyle (brushSize cfg) (brushColor cfg) (brushColor cfg) SourceOver))
        s.

(** ** Saving the drawing (lines 360-385) *)

(** The picture handed to the download link: a temporary canvas filled
    with [background], with the drawing canvas drawn on top of it. *)
Record SavedImage : Set := mkSavedImage {
  background : string;
  content : list InkOp
}.

Definition saveCanvasAsImage (s : State) : SavedImage :=
  mkSavedImage "#000000" (drawingCanvas s).

(** ** Unmounting (lines 315-322) *)

(** The cleanup of the last effect: the timeout of the handle, if there is
    one, is cleared. *)
Definition cleanupTimeouts (s : State) : State := clearExistingTimeout s.

(** * Notions the properties are stated with *)

(** The position the specification gives a landmark on the canvas:
    mirrored horizontally, scaled to the canvas. *)
Definition toCanvas (size : CanvasSize) (lm : Landmark) : Point :=
  mkPoint ((1 - lx lm) * width size) (ly lm * height size).

(** Euclidean distance of two points of the plane. *)
Definition euclidean (p q : Point) : R :=
  sqrt (Rsqr (px p - px q) + Rsqr (py p - py q)).

(** The square of the distance, the quantity under [Math.sqrt]. *)
Definition squaredDistance (size : CanvasSize) (landmarks : Hand) : R :=
  (canvasX size (landmarks 4%nat) - canvasX size (landmarks 8%nat)) ^ 2
  + (canvasY size (landmarks 4%nat) - canvasY size (landmarks 8%nat)) ^ 2.

(** The indices the loop of line 272 visits. *)
Definition fingertips : list nat := [8; 12; 16; 20]%nat.

(** The hand [landmarks] with the [y] of landmark [k] replaced. *)
Definition withY (landmarks : Hand) (k : nat) (y : R) : Hand :=
  fun i =>
    if (i =? k)%nat then mkLandmark (lx (landmarks i)) y (lz (landmarks i))
    else landmarks i.

(** ** Sample inputs *)

(** The drawing canvas of the page: [width={1000} height={700}]. *)
Definition canvas : CanvasSize := mkCanvasSize 1000 700.

(** The initial settings of the page (the [useState] defaults). *)
Definition defaults : Settings := mkSettings 5 "#ffffff" 5%nat false.

(** A hand given by its wrist, thumb tip and index tip; every other
    landmark is [other]. *)
Definition handOf (wrist thumb index other : Landmark) : Hand :=
  fun i =>
    match i with
    | 0%nat => wrist
    | 4%nat => thumb
    | 8%nat => index
    | _ => other
    end.

(** An upright hand (wrist at the bottom of the frame) with the index tip
    at [(u, v)] and the thumb tip [d] to its right in the video frame. *)
Definition apartAt (d u v : R) : Hand :=
  handOf (mkLandmark 0.5 1 0) (mkLandmark (u + d) v 0) (mkLandmark u v 0)
         (mkLandmark 0.5 0.5 0).

(** Thumb and index tips together at [(u, v)]. *)
Definition pinchAt (u v : R) : Hand := apartAt 0 u v.

(** Thumb and index tips 0.4 of the frame width apart. *)
Definition openAt (u v : R) : Hand := apartAt 0.4 u v.

(** A pinch at [(u, v)] made with the wrist at the top of the frame, so
    that no fingertip is above it. *)
Definition fistPinchAt (u v : R) : Hand :=
  handOf (mkLandmark 0.5 0 0) (mkLandmark u v 0) (mkLandmark u v 0)
         (mkLandmark 0.5 0.5 0).

(** ** Arithmetic mean *)

Fixpoint Rsum (l : list R) : R :=
  match l with
  | [] => 0
  | a :: rest => a + Rsum rest
  end.

(** The arithmetic mean of a list of points, coordinate by coordinate. *)
Definition mean (points : list Point) : Point :=
  mkPoint (Rsum (map px points) / INR (length points))
          (Rsum (map py points) / INR (length points)).

(** ** Strokes *)

(** The raw position of a hand's index tip, as handed to [drawOnCanvas]. *)
Definition indexTip (size : CanvasSize) (landmarks : Hand) : Point :=
  mkPoint (canvasX size (landmarks 8%nat)) (canvasY size (landmarks 8%nat)).

(** The outputs of [applySmoothing] called on the raw points in turn. *)
Fixpoint smoothAll (cfg : Settings) (raws : list Point) (s : State) : list Point :=
  match raws with
  | [] => []
  | p :: rest =>
      fst (applySmoothing cfg (px p) (py p) s)
      :: smoothAll cfg rest (snd (applySmoothing cfg (px p) (py p) s))
  end.

(** The segments joining [from] and the points after it, in order. *)
Fixpoint segments (ctx : ContextStyle) (from : Point) (points : list Point) : list InkOp :=
  match points with
  | [] => []
  | q :: rest => Segment from q ctx :: segments ctx q rest
  end.

(** A dot at the first point, then the segments through the others. *)
Definition strokeOps (cfg : Settings) (points : list Point) : list InkOp :=
  match points with
  | [] => []
  | p :: rest => Dot p (dotRadius cfg) (contextFor cfg) :: segments (contextFor cfg) p rest
  end.

Definition isDot (op : InkOp) : bool :=
  match op with Dot _ _ _ => true | Segment _ _ _ => false end.

Definition countDots (ops : list InkOp) : nat := length (filter isDot ops).

Definition countSegments (ops : list InkOp) : nat :=
  length (filter (fun op => negb (isDot op)) ops).

(** Two states that agree on the three cells of the smoothing filter. *)
Definition sameFilter (s t : State) : Prop :=
  smoothingPointsRef s = smoothingPointsRef t
  /\ lastSmoothedPositionRef s = lastSmoothedPositionRef t
  /\ velocityRef s = velocityRef t.

(** ** Frames *)

(** The state in which a hand's frame reaches the fist check of line 279:
    the cursor redrawn, the distance stored, the state switched. *)
Definition beforeFistCheck (size : CanvasSize) (cfg : Settings) (s : State)
  (landmarks : Hand) : State :=
  switchState cfg (isDrawGesture size landmarks)
    (canvasX size (landmarks 8%nat)) (canvasY size (landmarks 8%nat))
    (set_lastDistanceRef (distance size landmarks)
       (drawCursor cfg (canvasX size (landmarks 8%nat)) (canvasY size (landmarks 8%nat))
          (isDrawingRef s) s)).

(** The hover cursor at a point: a translucent ring and a solid centre. *)
Definition hoverCursor (cfg : Settings) (p : Point) : list CursorOp :=
  [ Ring p (if eraserMode cfg then 20 else 15)
      (if eraserMode cfg then "rgba(255, 255, 255, 0.3)"%string
       else "rgba(200, 200, 200, 0.3)"%string)
      "#ffffff"%string 2;
    CenterDot p 3 "#ffffff"%string ].

(** ** Runs of the filter *)

(** The state after [applySmoothing] has been called on the raw points in
    turn; [smoothAll] lists the outputs of the same calls. *)
Fixpoint smoothState (cfg : Settings) (raws : list Point) (s : State) : State :=
  match raws with
  | [] => s
  | p :: rest => smoothState cfg rest (snd (applySmoothing cfg (px p) (py p) s))
  end.

(** ** Reachable states *)

(** The states the component can be in: the freshly mounted one, and the
    one any event leaves, under whatever settings the page has at that
    moment, as long as the smoothing level is at most [maxLevel]. *)
Inductive reachable (size : CanvasSize) (maxLevel : nat) : State -> Prop :=
| reachable_initial : reachable size maxLevel initialState
| reachable_step (s : State) (cfg : Settings) (e : Event) :
    reachable size maxLevel s ->
    (smoothingLevel cfg <= maxLevel)%nat ->
    reachable size maxLevel (step size cfg s e).

(** ** Polylines *)

(** Where a paint operation leaves the pen. *)
Definition endPoint (op : InkOp) : Point :=
  match op with
  | Dot center _ _ => center
  | Segment _ to _ => to
  end.

(** Where the pen is after [ops], having been at [pen] before. *)
Definition penAfter (pen : option Point) (ops : list InkOp) : option Point :=
  fold_left (fun _ op => Some (endPoint op)) ops pen.

(** Every segment of [ops] starts where the pen is: at the end of the
    operation before it, or at [pen] for the first. *)
Fixpoint chained (pen : option Point) (ops : list InkOp) : Prop :=
  match ops with
  | [] => True
  | Dot center _ _ :: rest => chained (Some center) rest
  | Segment from to _ :: rest => pen = Some from /\ chained (Some to) rest
  end.

(** ** Invariants of the reachable states *)

(** At most one timeout is pending; it is the one of the handle and it is
    due within 30 ms. *)
Definition oneTimeout (s : State) : Prop :=
  pendingTimeouts s = []
  \/ exists id due,
       pendingTimeouts s = [(id, due)]
       /\ drawingStateTimeoutRef s = Some id
       /\ (due <= clock s + 30)%nat.

(** The session cells agree with the drawing flag. *)
Definition sessionOk (s : State) : Prop :=
  (isDrawingRef s = false ->
   isNewStrokeRef s = true /\ lastPositionRef s = None /\ smoothingPointsRef s = [])
  /\ (isNewStrokeRef s = false ->
      isDrawingRef s = true /\ exists p, lastPositionRef s = Some p)
  /\ (isDrawingRef s = true -> isDrawing s = true).

(** The drawing canvas is made of polylines, and the last committed point
    is where its last operation ends. *)
Definition inkOk (s : State) : Prop :=
  chained None (drawingCanvas s)
  /\ (forall p, lastPositionRef s = Some p -> penAfter None (drawingCanvas s) = Some p).

(** A short run used as a sample of a reachable state: a pinch, then an
    open hand 10 ms later. *)
Definition sampleRun : State :=
  run canvas defaults [OnResults 0 [pinchAt 0.5 0.5]; OnResults 10 [openAt 0.5 0.5]]
      initialState.

(** * Properties *)

(** ** Comparisons *)

Lemma Rltb_true_iff (a b : R) : Rltb a b = true <-> a < b.
Proof.
  unfold Rltb. destruct (Rlt_dec a b) as [Hlt | Hge]; split; intro H.
  - exact Hlt.
  - reflexivity.
  - discriminate H.
  - contradiction.
Qed.

Lemma Rltb_false_iff (a b : R) : Rltb a b = false <-> a >= b.
Proof.
  unfold Rltb. destruct (Rlt_dec a b) as [Hlt | Hge]; split; intro H.
  - discriminate H.
  - lra.
  - lra.
  - reflexivity.
Qed.

(** ** The pinch gesture *)

Lemma distance_euclidean (size : CanvasSize) (landmarks : Hand) :
  distance size landmarks
  = euclidean (toCanvas size (landmarks 4%nat)) (toCanvas size (landmarks 8%nat)).
Proof.
  unfold distance, euclidean, toCanvas, canvasX, canvasY, Rsqr. simpl.
  f_equal. ring.
Qed.

Lemma squaredDistance_nonneg (size : CanvasSize) (landmarks : Hand) :
  0 <= squaredDistance size landmarks.
Proof.
  unfold squaredDistance.
  apply Rplus_le_le_0_compat; apply pow2_ge_0.
Qed.

Lemma sqrt_lt_40 (v : R) : 0 <= v -> (sqrt v < 40 <-> v < 1600).
Proof.
  intro Hv.
  assert (H40 : sqrt 1600 = 40).
  { replace 1600 with (Rsqr 40) by (unfold Rsqr; lra). apply sqrt_Rsqr. lra. }
  rewrite <- H40 at 1. split; intro H.
  - apply sqrt_lt_0_alt. exact H.
  - apply sqrt_lt_1_alt. split; assumption.
Qed.

Lemma isDrawGesture_squared (size : CanvasSize) (landmarks : Hand) :
  isDrawGesture size landmarks = Rltb (squaredDistance size landmarks) 1600.
Proof.
  unfold isDrawGesture.
  assert (Hd : distance size landmarks = sqrt (squaredDistance size landmarks))
    by reflexivity.
  pose proof (sqrt_lt_40 _ (squaredDistance_nonneg size landmarks)) as Hiff.
  rewrite Hd.
  destruct (Rltb (squaredDistance size landmarks) 1600) eqn:Hsq.
  - apply Rltb_true_iff. apply Hiff. apply Rltb_true_iff. exact Hsq.
  - apply Rltb_false_iff. apply Rltb_false_iff in Hsq.
    apply Rnot_lt_ge. intro Hlt. apply Hiff in Hlt. lra.
Qed.

(** ** The fist gesture *)

Lemma isFist_unfold (landmarks : Hand) :
  isFist landmarks
  = negb (Rltb (ly (landmarks 8%nat)) (ly (landmarks 0%nat)))
    && negb (Rltb (ly (landmarks 12%nat)) (ly (landmarks 0%nat)))
    && negb (Rltb (ly (landmarks 16%nat)) (ly (landmarks 0%nat)))
    && negb (Rltb (ly (landmarks 20%nat)) (ly (landmarks 0%nat))).
Proof.
  unfold isFist. simpl.
  destruct (Rltb (ly (landmarks 8%nat)) _); [reflexivity|].
  destruct (Rltb (ly (landmarks 12%nat)) _); [reflexivity|].
  destruct (Rltb (ly (landmarks 16%nat)) _); [reflexivity|].
  destruct (Rltb (ly (landmarks 20%nat)) _); reflexivity.
Qed.

(** More fuel than the four iterations changes nothing. *)
Lemma fistLoop_fuel (landmarks : Hand) (extra : nat) :
  fistLoop landmarks (4 + extra) 8 = fistLoop landmarks 4 8.
Proof.
  simpl.
  destruct (Rltb (ly (landmarks 8%nat)) _); [reflexivity|].
  destruct (Rltb (ly (landmarks 12%nat)) _); [reflexivity|].
  destruct (Rltb (ly (landmarks 16%nat)) _); [reflexivity|].
  destruct (Rltb (ly (landmarks 20%nat)) _); [reflexivity|].
  destruct extra; reflexivity.
Qed.

Lemma isFist_true_iff (landmarks : Hand) :
  isFist landmarks = true
  <-> forall i, In i fingertips -> ly (landmarks i) >= ly (landmarks 0%nat).
Proof.
  rewrite isFist_unfold. rewrite !andb_true_iff, !negb_true_iff, !Rltb_false_iff.
  unfold fingertips. split.
  - intros [[[H8 H12] H16] H20] i Hi. simpl in Hi.
    destruct Hi as [<- | [<- | [<- | [<- | []]]]]; assumption.
  - intro H. repeat split; apply H; simpl; auto.
Qed.

Lemma isFist_false_iff (landmarks : Hand) :
  isFist landmarks = false
  <-> exists i, In i fingertips /\ ly (landmarks i) < ly (landmarks 0%nat).
Proof.
  rewrite isFist_unfold. rewrite !andb_false_iff, !negb_false_iff, !Rltb_true_iff.
  unfold fingertips. split.
  - intros [[[H | H] | H] | H]; eexists; (split; [| exact H]); simpl; auto.
  - intros [i [Hi H]]. simpl in Hi.
    destruct Hi as [<- | [<- | [<- | [<- | []]]]]; auto.
Qed.

(** ** The sample hands *)

Lemma squaredDistance_apartAt (d u v : R) :
  squaredDistance canvas (apartAt d u v) = Rsqr (1000 * d).
Proof.
  unfold squaredDistance, apartAt, handOf, canvasX, canvasY, canvas, Rsqr. simpl.
  ring.
Qed.

Lemma isDrawGesture_pinchAt (u v : R) : isDrawGesture canvas (pinchAt u v) = true.
Proof.
  rewrite isDrawGesture_squared. unfold pinchAt. rewrite squaredDistance_apartAt.
  apply Rltb_true_iff. unfold Rsqr. lra.
Qed.

Lemma isDrawGesture_openAt (u v : R) : isDrawGesture canvas (openAt u v) = false.
Proof.
  rewrite isDrawGesture_squared. unfold openAt. rewrite squaredDistance_apartAt.
  apply Rltb_false_iff. unfold Rsqr. lra.
Qed.

Lemma isFist_apartAt (d u v : R) : isFist (apartAt d u v) = false.
Proof.
  apply isFist_false_iff. exists 12%nat. split.
  - unfold fingertips. simpl. auto.
  - unfold apartAt, handOf. simpl. lra.
Qed.

Lemma isFist_pinchAt (u v : R) : isFist (pinchAt u v) = false.
Proof. apply isFist_apartAt. Qed.

Lemma isFist_openAt (u v : R) : isFist (openAt u v) = false.
Proof. apply isFist_apartAt. Qed.

Lemma isDrawGesture_fistPinchAt (u v : R) :
  isDrawGesture canvas (fistPinchAt u v) = true.
Proof.
  rewrite isDrawGesture_squared. apply Rltb_true_iff.
  unfold squaredDistance, fistPinchAt, handOf, canvasX, canvasY, canvas. simpl. lra.
Qed.

Lemma isFist_fistPinchAt (u v : R) : 0 <= v -> isFist (fistPinchAt u v) = true.
Proof.
  intro Hv. apply isFist_true_iff. intros i Hi. unfold fingertips in Hi. simpl in Hi.
  destruct Hi as [<- | [<- | [<- | [<- | []]]]];
    unfold fistPinchAt, handOf; simpl; lra.
Qed.

(** ** What a frame leaves of the drawing flag *)

Lemma isDrawingRef_applySmoothing (cfg : Settings) (x y : R) (s : State) :
  isDrawingRef (snd (applySmoothing cfg x y s)) = isDrawingRef s.
Proof.
  unfold applySmoothing. simpl. destruct (lastSmoothedPositionRef s); reflexivity.
Qed.

Lemma isDrawingRef_drawOnCanvas (cfg : Settings) (x y : R) (s : State) :
  isDrawingRef (drawOnCanvas cfg x y s) = isDrawingRef s.
Proof.
  unfold drawOnCanvas.
  pose proof (isDrawingRef_applySmoothing cfg x y s) as H.
  destruct (applySmoothing cfg x y s) as [p s1]. simpl in H.
  destruct (isNewStrokeRef s1); [exact H|].
  destruct (lastPositionRef s1); [|exact H].
  destruct (isDrawingRef s1) eqn:E; simpl; congruence.
Qed.

Lemma isDrawingRef_drawCursor (cfg : Settings) (x y d : R) (b : bool) (s : State) :
  isDrawingRef (set_lastDistanceRef d (drawCursor cfg x y b s)) = isDrawingRef s.
Proof. unfold drawCursor. destruct b; reflexivity. Qed.

Lemma isDrawingRef_clearExistingTimeout (s : State) :
  isDrawingRef (clearExistingTimeout s) = isDrawingRef s.
Proof. unfold clearExistingTimeout. destruct (drawingStateTimeoutRef s); reflexivity. Qed.

Lemma isDrawingRef_scheduleStop (s : State) :
  isDrawingRef (scheduleStop s) = isDrawingRef s.
Proof.
  unfold scheduleStop, setTimeout. simpl. apply isDrawingRef_clearExistingTimeout.
Qed.

(** From an idle state the flag after the state switch is the gesture. *)
Lemma switchState_from_idle (cfg : Settings) (draw : bool) (x y : R) (s : State) :
  isDrawingRef s = false -> isDrawingRef (switchState cfg draw x y s) = draw.
Proof.
  intro Hidle. unfold switchState. rewrite Hidle. simpl.
  destruct draw; [|exact Hidle].
  rewrite isDrawingRef_drawOnCanvas. reflexivity.
Qed.

(** C3.  The draw gesture of a landmark set holds exactly when the
    Euclidean distance between the thumb tip (landmark 4) and the index
    tip (landmark 8), both taken in canvas pixels with the horizontal
    mirroring [px = (1 - x) * width], [py = y * height], is strictly below
    40; at a distance of exactly 40 the gesture is false.  It is this test
    that decides whether an idle component starts to draw on a frame whose
    hand is not a fist. *)
Theorem draw_gesture_iff_pinch_below_40 (size : CanvasSize) (landmarks : Hand) :
  let d := euclidean (toCanvas size (landmarks 4%nat)) (toCanvas size (landmarks 8%nat)) in
  distance size landmarks = d
  /\ (isDrawGesture size landmarks = true <-> d < 40)
  /\ (d = 40 -> isDrawGesture size landmarks = false)
  /\ (forall cfg s,
        isDrawingRef s = false -> isFist landmarks = false ->
        (isDrawingRef (handleHand size cfg s landmarks) = true <-> d < 40)).
Proof.
  intro d. pose proof (distance_euclidean size landmarks) as Hd. fold d in Hd.
  assert (Hiff : isDrawGesture size landmarks = true <-> d < 40).
  { unfold isDrawGesture. rewrite Hd. apply Rltb_true_iff. }
  split; [exact Hd|]. split; [exact Hiff|]. split.
  - intro H40. unfold isDrawGesture. rewrite Hd. apply Rltb_false_iff. lra.
  - intros cfg s Hidle Hopen. unfold handleHand. rewrite Hopen.
    rewrite switchState_from_idle.
    + exact Hiff.
    + rewrite <- Hidle. apply isDrawingRef_drawCursor.
Qed.

(** C3 at the boundary: thumb and index tips 0.04 of the 1000 pixel wide
    canvas apart are exactly 40 pixels apart, and the gesture is false. *)
Lemma draw_gesture_boundary_witness :
  euclidean (toCanvas canvas (apartAt 0.04 0.5 0.5 4%nat))
            (toCanvas canvas (apartAt 0.04 0.5 0.5 8%nat)) = 40
  /\ isDrawGesture canvas (apartAt 0.04 0.5 0.5) = false.
Proof.
  assert (H40 : euclidean (toCanvas canvas (apartAt 0.04 0.5 0.5 4%nat))
                          (toCanvas canvas (apartAt 0.04 0.5 0.5 8%nat)) = 40).
  { unfold euclidean, toCanvas, apartAt, handOf, canvas. simpl.
    replace (Rsqr _ + Rsqr _) with (Rsqr 40) by (unfold Rsqr; lra).
    apply sqrt_Rsqr. lra. }
  split.
  - exact H40.
  - apply (draw_gesture_iff_pinch_below_40 canvas (apartAt 0.04 0.5 0.5)).
    exact H40.
Defined.

(** C4.  A landmark set is classified as a fist exactly when each of the
    fingertips 8, 12, 16 and 20 has a [y] greater than or equal to the
    wrist's (landmark 0); so a hand with all four at or below the wrist is
    a fist, and giving one of its fingertips a [y] smaller than the wrist's
    makes it a non-fist. *)
Theorem fist_iff_no_fingertip_above_wrist (landmarks : Hand) :
  (isFist landmarks = true
   <-> forall i, In i fingertips -> ly (landmarks i) >= ly (landmarks 0%nat))
  /\ (forall k y,
        (forall i, In i fingertips -> ly (landmarks i) >= ly (landmarks 0%nat)) ->
        In k fingertips -> y < ly (landmarks 0%nat) ->
        isFist landmarks = true /\ isFist (withY landmarks k y) = false).
Proof.
  split.
  - apply isFist_true_iff.
  - intros k y Hall Hk Hy. split.
    + apply isFist_true_iff. exact Hall.
    + apply isFist_false_iff. exists k. split; [exact Hk|].
      assert (Hk0 : (0 =? k)%nat = false).
      { unfold fingertips in Hk. simpl in Hk.
        destruct Hk as [<- | [<- | [<- | [<- | []]]]]; reflexivity. }
      unfold withY. rewrite Nat.eqb_refl, Hk0. simpl. exact Hy.
Qed.

(** C4 on a sample hand: the fist of [fistPinchAt] stops being one when
    its ring fingertip (landmark 16) is raised above the wrist. *)
Lemma fist_flip_witness :
  isFist (fistPinchAt 0.5 0.5) = true
  /\ isFist (withY (fistPinchAt 0.5 0.5) 16 (-0.1)) = false.
Proof.
  apply (proj2 (fist_iff_no_fingertip_above_wrist (fistPinchAt 0.5 0.5)) 16%nat (-0.1)).
  - intros i Hi. unfold fingertips in Hi. simpl in Hi.
    destruct Hi as [<- | [<- | [<- | [<- | []]]]];
      unfold fistPinchAt, handOf; simpl; lra.
  - unfold fingertips. simpl. auto.
  - unfold fistPinchAt, handOf. simpl. lra.
Defined.

(** ** The smoothing filter *)

Lemma fold_left_sum {A : Type} (f : A -> R) (l : list A) (a : R) :
  fold_left (fun sum e => sum + f e) l a = a + Rsum (map f l).
Proof.
  revert a. induction l as [| e l IH]; intro a; simpl.
  - ring.
  - rewrite IH. ring.
Qed.

Lemma sumX_Rsum (points : list Point) : sumX points = Rsum (map px points).
Proof. unfold sumX. rewrite fold_left_sum. ring. Qed.

Lemma sumY_Rsum (points : list Point) : sumY points = Rsum (map py points).
Proof. unfold sumY. rewrite fold_left_sum. ring. Qed.

Lemma pushBounded_room (level : nat) (points : list Point) (p : Point) :
  (length points < level)%nat -> pushBounded level points p = points ++ [p].
Proof.
  intro H. unfold pushBounded. rewrite length_app. simpl.
  destruct (Nat.ltb_spec level (length points + 1)); [lia | reflexivity].
Qed.

Lemma pushBounded_full (level : nat) (points : list Point) (p : Point) :
  (1 <= level)%nat -> (level <= length points)%nat ->
  pushBounded level points p = tl points ++ [p].
Proof.
  intros H1 H. unfold pushBounded. rewrite length_app. simpl.
  destruct (Nat.ltb_spec level (length points + 1)); [| lia].
  destruct points as [| q rest]; [simpl in H; lia | reflexivity].
Qed.

Lemma pushBounded_nonempty (level : nat) (points : list Point) (p : Point) :
  (1 <= level)%nat -> pushBounded level points p <> [].
Proof.
  intro H1. destruct (Nat.lt_ge_cases (length points) level) as [Hlt | Hge].
  - rewrite pushBounded_room by exact Hlt. destruct points; discriminate.
  - rewrite pushBounded_full by assumption. destruct (tl points); discriminate.
Qed.

(** The buffer never grows past a level it already respects. *)
Lemma pushBounded_length (level : nat) (points : list Point) (p : Point) :
  (1 <= level)%nat -> (length points <= level)%nat ->
  (length (pushBounded level points p) <= level)%nat.
Proof.
  intros H1 Hle. destruct (Nat.lt_ge_cases (length points) level) as [Hlt | Hge].
  - rewrite pushBounded_room by exact Hlt. rewrite length_app. simpl. lia.
  - rewrite pushBounded_full by assumption. rewrite length_app. simpl.
    destruct points; simpl in *; lia.
Qed.

(** C1.  A call [applySmoothing(x, y)] appends the raw point to the
    buffer and drops the oldest point when the buffer has become longer
    than [smoothingLevel]; [avg] is the arithmetic mean of the buffered
    points; without a previous smoothed output the result is [avg]; with
    one, the velocity first becomes [0.3 * (avg - lastSmoothed) + 0.7 *
    velocity] and the result is [avg + 0.2 * velocity], coordinate by
    coordinate; the result is stored as the new [lastSmoothedPositionRef].
    For a level of at least 1, as the slider gives it, the buffer is never
    empty, it evicts exactly when it already held [smoothingLevel] points,
    and it stays within a level it respected before the call. *)
Theorem applySmoothing_mean_and_momentum (cfg : Settings) (x y : R) (s : State) :
  let old := smoothingPointsRef s in
  let level := smoothingLevel cfg in
  let out := fst (applySmoothing cfg x y s) in
  let s' := snd (applySmoothing cfg x y s) in
  let buffer := smoothingPointsRef s' in
  let avg := mean buffer in
  buffer = (if (level <? length (old ++ [mkPoint x y]))%nat
            then tl (old ++ [mkPoint x y]) else old ++ [mkPoint x y])
  /\ match lastSmoothedPositionRef s with
     | None => out = avg /\ velocityRef s' = velocityRef s
     | Some last =>
         px (velocityRef s') = 0.3 * (px avg - px last) + 0.7 * px (velocityRef s)
         /\ py (velocityRef s') = 0.3 * (py avg - py last) + 0.7 * py (velocityRef s)
         /\ px out = px avg + 0.2 * px (velocityRef s')
         /\ py out = py avg + 0.2 * py (velocityRef s')
     end
  /\ lastSmoothedPositionRef s' = Some out
  /\ ((1 <= level)%nat ->
      buffer <> []
      /\ ((length old < level)%nat -> buffer = old ++ [mkPoint x y])
      /\ ((level <= length old)%nat -> buffer = tl old ++ [mkPoint x y])
      /\ ((length old <= level)%nat -> (length buffer <= level)%nat)).
Proof.
  intros old level out s' buffer avg.
  assert (Hbuf : buffer = pushBounded level old (mkPoint x y)).
  { unfold buffer, s', applySmoothing. cbn.
    destruct (lastSmoothedPositionRef s); reflexivity. }
  split; [exact Hbuf|].
  split.
  { unfold avg, mean. rewrite Hbuf. rewrite <- sumX_Rsum, <- sumY_Rsum.
    unfold out, s', applySmoothing. cbn.
    destruct (lastSmoothedPositionRef s) as [last |]; cbn.
    - subst old level. unfold Rdiv, sumX, sumY. repeat split; ring.
    - repeat split. }
  split.
  { unfold out, s', applySmoothing. cbn.
    destruct (lastSmoothedPositionRef s); reflexivity. }
  intro Hlevel. rewrite Hbuf.
  split; [apply pushBounded_nonempty; exact Hlevel|].
  split; [intro H; apply pushBounded_room; exact H|].
  split; [intro H; apply pushBounded_full; assumption|].
  intro H. apply pushBounded_length; assumption.
Qed.

(** C1 on a sample call: the component defaults, the buffer [(0, 0)], a
    previous output [(0, 0)] and a velocity of [(10, 0)]; the raw point
    [(20, 0)] is appended without eviction, the mean is [(10, 0)], the
    velocity becomes [(10, 0)] again and the output is [(12, 0)]. *)
Lemma applySmoothing_momentum_witness :
  let s := set_velocityRef (mkPoint 10 0)
             (set_lastSmoothedPositionRef (Some (mkPoint 0 0))
                (set_smoothingPointsRef [mkPoint 0 0] initialState)) in
  smoothingPointsRef (snd (applySmoothing defaults 20 0 s)) = [mkPoint 0 0; mkPoint 20 0]
  /\ px (velocityRef (snd (applySmoothing defaults 20 0 s))) = 10
  /\ px (fst (applySmoothing defaults 20 0 s)) = 12.
Proof.
  intro s.
  pose proof (applySmoothing_mean_and_momentum defaults 20 0 s) as H.
  cbv zeta in H. destruct H as [_ [Hout [_ Hroom]]].
  assert (Hlevel : (1 <= smoothingLevel defaults)%nat) by (cbn; lia).
  destruct (Hroom Hlevel) as [_ [Hpush _]].
  assert (Hbuf : smoothingPointsRef (snd (applySmoothing defaults 20 0 s))
                 = [mkPoint 0 0; mkPoint 20 0]).
  { apply Hpush. cbn. lia. }
  split; [exact Hbuf|].
  rewrite Hbuf in Hout.
  change (lastSmoothedPositionRef s) with (Some (mkPoint 0 0)) in Hout.
  change (velocityRef s) with (mkPoint 10 0) in Hout.
  lazy beta iota in Hout.
  destruct Hout as [Hvx [_ [Hox _]]].
  assert (Hv : px (velocityRef (snd (applySmoothing defaults 20 0 s))) = 10).
  { rewrite Hvx. unfold mean. cbn. lra. }
  split; [exact Hv|].
  rewrite Hox, Hv. unfold mean. cbn. lra.
Defined.

(** ** Strokes *)

Section Stroke.

Variable size : CanvasSize.
Variable cfg : Settings.

Lemma sameFilter_refl (s : State) : sameFilter s s.
Proof. repeat split. Qed.

Lemma sameFilter_trans (s t u : State) :
  sameFilter s t -> sameFilter t u -> sameFilter s u.
Proof.
  intros [H1 [H2 H3]] [K1 [K2 K3]]. repeat split; congruence.
Qed.

(** [applySmoothing] reads and writes the three filter cells only. *)
Lemma applySmoothing_sameFilter (x y : R) (s t : State) :
  sameFilter s t ->
  fst (applySmoothing cfg x y s) = fst (applySmoothing cfg x y t)
  /\ sameFilter (snd (applySmoothing cfg x y s)) (snd (applySmoothing cfg x y t)).
Proof.
  intros [Hbuf [Hlast Hvel]]. unfold applySmoothing, sameFilter. cbn.
  rewrite Hbuf, Hlast, Hvel.
  destruct (lastSmoothedPositionRef t); cbn; repeat split; exact Hvel.
Qed.

Lemma smoothAll_sameFilter (raws : list Point) (s t : State) :
  sameFilter s t -> smoothAll cfg raws s = smoothAll cfg raws t.
Proof.
  revert s t. induction raws as [| p rest IH]; intros s t Hst; cbn.
  - reflexivity.
  - destruct (applySmoothing_sameFilter (px p) (py p) s t Hst) as [Hout Hnext].
    rewrite Hout. f_equal. apply IH. exact Hnext.
Qed.

Lemma smoothAll_length (raws : list Point) (s : State) :
  length (smoothAll cfg raws s) = length raws.
Proof.
  revert s. induction raws as [| p rest IH]; intro s; cbn; [reflexivity|].
  rewrite IH. reflexivity.
Qed.

(** What [drawOnCanvas] leaves in the cells other than the filter's. *)
Lemma drawOnCanvas_effect (x y : R) (s : State) :
  let q := fst (applySmoothing cfg x y s) in
  let op := if isNewStrokeRef s then Dot q (dotRadius cfg) (contextFor cfg)
            else match lastPositionRef s with
                 | Some last =>
                     if isDrawingRef s then Segment last q (contextFor cfg)
                     else Dot q (dotRadius cfg) (contextFor cfg)
                 | None => Dot q (dotRadius cfg) (contextFor cfg)
                 end in
  drawingCanvas (drawOnCanvas cfg x y s) = drawingCanvas s ++ [op]
  /\ isNewStrokeRef (drawOnCanvas cfg x y s) = false
  /\ lastPositionRef (drawOnCanvas cfg x y s) = Some q
  /\ sameFilter (drawOnCanvas cfg x y s) (snd (applySmoothing cfg x y s)).
Proof.
  unfold drawOnCanvas, applySmoothing, sameFilter. cbn.
  destruct (lastSmoothedPositionRef s); cbn;
    destruct (isNewStrokeRef s) eqn:Hnew; cbn; try (repeat split; fail);
    destruct (lastPositionRef s); cbn; try (repeat split; fail);
    destruct (isDrawingRef s); cbn; repeat split; try exact Hnew.
Qed.

(** The cursor redraw and the distance cell, the first two effects of a
    frame, leave every other cell alone. *)
Lemma entry_cells (x y d : R) (b : bool) (s : State) :
  let s2 := set_lastDistanceRef d (drawCursor cfg x y b s) in
  lastPositionRef s2 = lastPositionRef s
  /\ isDrawingRef s2 = isDrawingRef s
  /\ isNewStrokeRef s2 = isNewStrokeRef s
  /\ drawingCanvas s2 = drawingCanvas s
  /\ drawingStateTimeoutRef s2 = drawingStateTimeoutRef s
  /\ pendingTimeouts s2 = pendingTimeouts s
  /\ sameFilter s2 s.
Proof. unfold drawCursor, sameFilter. destruct b; cbn; repeat split. Qed.

Lemma startDrawing_cells (s : State) :
  isDrawingRef (startDrawing s) = true
  /\ isNewStrokeRef (startDrawing s) = true
  /\ lastPositionRef (startDrawing s) = None
  /\ smoothingPointsRef (startDrawing s) = []
  /\ lastSmoothedPositionRef (startDrawing s) = lastSmoothedPositionRef s
  /\ velocityRef (startDrawing s) = velocityRef s
  /\ drawingCanvas (startDrawing s) = drawingCanvas s.
Proof.
  unfold startDrawing, clearExistingTimeout.
  destruct (drawingStateTimeoutRef s); cbn; repeat split.
Qed.

Lemma startDrawing_sameFilter (s t : State) :
  sameFilter s t -> sameFilter (startDrawing s) (startDrawing t).
Proof.
  intros [_ [Hlast Hvel]].
  destruct (startDrawing_cells s) as [_ [_ [_ [Hb [Hl [Hv _]]]]]].
  destruct (startDrawing_cells t) as [_ [_ [_ [Kb [Kl [Kv _]]]]]].
  unfold sameFilter. rewrite Hb, Hl, Hv, Kb, Kl, Kv. repeat split; assumption.
Qed.

(** A frame of an ongoing stroke commits one segment, from the last
    committed point to the new smoothed point. *)
Lemma handleHand_continue (s : State)
  (landmarks : Hand) (p0 : Point) :
  isDrawingRef s = true -> isNewStrokeRef s = false -> lastPositionRef s = Some p0 ->
  isDrawGesture size landmarks = true -> isFist landmarks = false ->
  let raw := indexTip size landmarks in
  let q := fst (applySmoothing cfg (px raw) (py raw) s) in
  let s' := handleHand size cfg s landmarks in
  drawingCanvas s' = drawingCanvas s ++ [Segment p0 q (contextFor cfg)]
  /\ isDrawingRef s' = true
  /\ isNewStrokeRef s' = false
  /\ lastPositionRef s' = Some q
  /\ sameFilter s' (snd (applySmoothing cfg (px raw) (py raw) s)).
Proof.
  intros Hdrawing Hnew Hlast Hdraw Hopen raw q s'.
  unfold s', handleHand. rewrite Hdraw, Hopen. unfold switchState.
  set (x := canvasX size (landmarks 8%nat)). set (y := canvasY size (landmarks 8%nat)).
  set (s2 := set_lastDistanceRef _ _).
  destruct (entry_cells x y (distance size landmarks) (isDrawingRef s) s)
    as [Elast [Edrawing [Enew [Eink [_ [_ Efilter]]]]]].
  fold s2 in Elast, Edrawing, Enew, Eink, Efilter.
  rewrite Edrawing, Hdrawing. cbn [negb]. rewrite Edrawing, Hdrawing.
  destruct (drawOnCanvas_effect x y s2) as [Dink [Dnew [Dlast Dfilter]]].
  destruct (applySmoothing_sameFilter x y s2 s Efilter) as [Hout Hnext].
  rewrite Enew, Hnew, Elast, Hlast, Edrawing, Hdrawing, Eink, Hout in Dink.
  rewrite Hout in Dlast.
  split; [exact Dink|]. split; [rewrite isDrawingRef_drawOnCanvas; congruence|].
  split; [exact Dnew|]. split; [exact Dlast|].
  exact (sameFilter_trans _ _ _ Dfilter Hnext).
Qed.

(** The frame that starts a stroke commits one dot, at the first smoothed
    point of the stroke. *)
Lemma handleHand_start (s : State)
  (landmarks : Hand) :
  isDrawingRef s = false ->
  isDrawGesture size landmarks = true -> isFist landmarks = false ->
  let raw := indexTip size landmarks in
  let q := fst (applySmoothing cfg (px raw) (py raw) (startDrawing s)) in
  let s' := handleHand size cfg s landmarks in
  drawingCanvas s' = drawingCanvas s ++ [Dot q (dotRadius cfg) (contextFor cfg)]
  /\ isDrawingRef s' = true
  /\ isNewStrokeRef s' = false
  /\ lastPositionRef s' = Some q
  /\ sameFilter s' (snd (applySmoothing cfg (px raw) (py raw) (startDrawing s))).
Proof.
  intros Hidle Hdraw Hopen raw q s'.
  unfold s', handleHand. rewrite Hdraw, Hopen. unfold switchState.
  set (x := canvasX size (landmarks 8%nat)). set (y := canvasY size (landmarks 8%nat)).
  set (s2 := set_lastDistanceRef _ _).
  destruct (entry_cells x y (distance size landmarks) (isDrawingRef s) s)
    as [_ [Edrawing [_ [Eink [_ [_ Efilter]]]]]].
  fold s2 in Edrawing, Eink, Efilter.
  rewrite Edrawing, Hidle. cbn [negb].
  destruct (startDrawing_cells s2) as [Sdrawing [Snew [_ [_ [_ [_ Sink]]]]]].
  rewrite Sdrawing.
  destruct (drawOnCanvas_effect x y (startDrawing s2)) as [Dink [Dnew [Dlast Dfilter]]].
  pose proof (startDrawing_sameFilter s2 s Efilter) as Hfilter.
  destruct (applySmoothing_sameFilter x y _ _ Hfilter) as [Hout Hnext].
  rewrite Snew, Sink, Eink, Hout in Dink. rewrite Hout in Dlast.
  split; [exact Dink|]. split; [rewrite isDrawingRef_drawOnCanvas; exact Sdrawing|].
  split; [exact Dnew|]. split; [exact Dlast|].
  exact (sameFilter_trans _ _ _ Dfilter Hnext).
Qed.

(** What re-arming the stop leaves alone. *)
Lemma scheduleStop_cells (s : State) :
  drawingCanvas (scheduleStop s) = drawingCanvas s
  /\ isDrawingRef (scheduleStop s) = isDrawingRef s
  /\ isNewStrokeRef (scheduleStop s) = isNewStrokeRef s
  /\ lastPositionRef (scheduleStop s) = lastPositionRef s
  /\ sameFilter (scheduleStop s) s.
Proof.
  unfold scheduleStop, setTimeout, clearExistingTimeout, sameFilter.
  destruct (drawingStateTimeoutRef s); cbn; repeat split.
Qed.

(** A frame without the draw gesture that finds the stroke on commits
    nothing and leaves the stroke on: it only arms the stop. *)
Lemma handleHand_hold (s : State) (landmarks : Hand) :
  isDrawingRef s = true ->
  isDrawGesture size landmarks = false -> isFist landmarks = false ->
  let s' := handleHand size cfg s landmarks in
  drawingCanvas s' = drawingCanvas s
  /\ isDrawingRef s' = true
  /\ isNewStrokeRef s' = isNewStrokeRef s
  /\ lastPositionRef s' = lastPositionRef s
  /\ sameFilter s' s.
Proof.
  intros Hdrawing Hdraw Hopen s'.
  unfold s', handleHand. rewrite Hdraw, Hopen. unfold switchState.
  set (x := canvasX size (landmarks 8%nat)). set (y := canvasY size (landmarks 8%nat)).
  set (s2 := set_lastDistanceRef _ _).
  destruct (entry_cells x y (distance size landmarks) (isDrawingRef s) s)
    as [Elast [Edrawing [Enew [Eink [_ [_ Efilter]]]]]].
  fold s2 in Elast, Edrawing, Enew, Eink, Efilter.
  rewrite Edrawing, Hdrawing.
  destruct (scheduleStop_cells s2) as [Sink [Sdrawing [Snew [Slast Sfilter]]]].
  split; [congruence|]. split; [congruence|]. split; [congruence|].
  split; [congruence|]. exact (sameFilter_trans _ _ _ Sfilter Efilter).
Qed.

(** The frames of a stroke after its first: one segment for each frame
    with the draw gesture, chained; nothing for the others. *)
Lemma continue_stroke (hands : list Hand) :
  forall (s t : State) (p0 : Point),
    isDrawingRef s = true -> isNewStrokeRef s = false -> lastPositionRef s = Some p0 ->
    sameFilter s t ->
    Forall (fun h => isFist h = false) hands ->
    drawingCanvas (fold_left (handleHand size cfg) hands s)
    = drawingCanvas s
      ++ segments (contextFor cfg) p0
           (smoothAll cfg (map (indexTip size) (filter (isDrawGesture size) hands)) t)
    /\ isDrawingRef (fold_left (handleHand size cfg) hands s) = true.
Proof.
  induction hands as [| h rest IH]; intros s t p0 Hdrawing Hnew Hlast Hst Hall;
    cbn [fold_left filter].
  - cbn. rewrite app_nil_r. split; [reflexivity | exact Hdrawing].
  - inversion Hall as [| h' rest' Hopen Hrest]; subst.
    destruct (isDrawGesture size h) eqn:Hdraw.
    + destruct (handleHand_continue s h p0 Hdrawing Hnew Hlast Hdraw Hopen)
        as [Hink [Hdrawing' [Hnew' [Hlast' Hfilter']]]].
      destruct (applySmoothing_sameFilter (canvasX size (h 8%nat))
                  (canvasY size (h 8%nat)) s t Hst) as [Hout Hnext].
      cbn in Hout, Hnext, Hink, Hlast', Hfilter'.
      destruct (IH _ (snd (applySmoothing cfg (canvasX size (h 8%nat))
                             (canvasY size (h 8%nat)) t))
                   _ Hdrawing' Hnew' Hlast'
                   (sameFilter_trans _ _ _ Hfilter' Hnext) Hrest) as [Hcanvas Hflag].
      split; [| exact Hflag].
      rewrite Hcanvas, Hink, <- app_assoc. cbn. rewrite Hout. reflexivity.
    + destruct (handleHand_hold s h Hdrawing Hdraw Hopen)
        as [Hink [Hdrawing' [Hnew' [Hlast' Hfilter']]]].
      cbv zeta in Hink, Hdrawing', Hnew', Hlast', Hfilter'.
      rewrite Hnew in Hnew'. rewrite Hlast in Hlast'.
      destruct (IH _ t p0 Hdrawing' Hnew' Hlast'
                   (sameFilter_trans _ _ _ Hfilter' Hst) Hrest) as [Hcanvas Hflag].
      split; [| exact Hflag].
      rewrite Hcanvas, Hink. reflexivity.
Qed.

Lemma fold_single_hand_frames (hands : list Hand)
  (s : State) :
  fold_left (handleMediaPipeResults size cfg) (map (fun h => [h]) hands) s
  = fold_left (handleHand size cfg) hands s.
Proof.
  revert s. induction hands as [| h rest IH]; intro s; cbn; [reflexivity|].
  apply IH.
Qed.

Lemma segments_counts (ctx : ContextStyle) (points : list Point) (p : Point) :
  countDots (segments ctx p points) = 0%nat
  /\ countSegments (segments ctx p points) = length points.
Proof.
  revert p. unfold countDots, countSegments.
  induction points as [| q rest IH]; intro p; cbn; [split; reflexivity|].
  destruct (IH q) as [Hd Hs]. rewrite Hd, Hs. split; reflexivity.
Qed.

Lemma segments_nth (ctx : ContextStyle) (points : list Point) :
  forall (from : Point) (k : nat) (p q : Point),
    nth_error (from :: points) k = Some p ->
    nth_error (from :: points) (S k) = Some q ->
    nth_error (segments ctx from points) k = Some (Segment p q ctx).
Proof.
  induction points as [| r rest IH]; intros from k p q Hp Hq.
  - destruct k; cbn in Hq; [discriminate | destruct k; discriminate].
  - destruct k as [| k].
    + cbn in Hp, Hq. injection Hp as <-. injection Hq as <-. reflexivity.
    + cbn [segments nth_error]. apply IH; assumption.
Qed.

(** C6, as the code has it.  Take frames in a row, each with one hand
    that is no fist, arriving at an idle component with no timeout firing
    and no clear in between, the first of them with the draw gesture.
    Every one of them leaves the component drawing, with or without the
    gesture.  If N of them carry the draw gesture, the drawing canvas
    receives exactly one dot, on the first frame, at the first smoothed
    point, and then exactly N - 1 segments, the k-th of which joins the
    k-th and the (k+1)-th smoothed point; the frames without the gesture
    commit nothing.  The smoothed points are the outputs of
    [applySmoothing] on the index-tip positions of the frames with the
    gesture, from the filter as the start of the stroke leaves it. *)
Theorem stroke_commits_follow_gesture_frames (s : State) (first : Hand)
  (rest : list Hand) :
  isDrawingRef s = false ->
  isDrawGesture size first = true ->
  Forall (fun h => isFist h = false) (first :: rest) ->
  let hands := first :: rest in
  let after := fun frames : list Hand =>
                 fold_left (handleMediaPipeResults size cfg)
                           (map (fun h => [h]) frames) s in
  let drawn := filter (isDrawGesture size) hands in
  let points := smoothAll cfg (map (indexTip size) drawn) (startDrawing s) in
  let ink := strokeOps cfg points in
  (forall k, (1 <= k)%nat -> isDrawingRef (after (firstn k hands)) = true)
  /\ (1 <= length drawn)%nat
  /\ length points = length drawn
  /\ drawingCanvas (after hands) = drawingCanvas s ++ ink
  /\ countDots ink = 1%nat
  /\ countSegments ink = (length drawn - 1)%nat
  /\ (forall p, nth_error points 0 = Some p ->
                nth_error ink 0 = Some (Dot p (dotRadius cfg) (contextFor cfg)))
  /\ (forall k p q,
        nth_error points k = Some p -> nth_error points (S k) = Some q ->
        nth_error ink (S k) = Some (Segment p q (contextFor cfg))).
Proof.
  intros Hidle Hdraw Hall hands after drawn points ink.
  inversion Hall as [| h' rest' Hopen Hrest]; subst h' rest'.
  destruct (handleHand_start s first Hidle Hdraw Hopen)
    as [Hink [Hdrawing [Hnew [Hlast Hfilter]]]].
  cbn in Hink, Hlast, Hfilter.
  set (q1 := fst (applySmoothing cfg (canvasX size (first 8%nat))
                    (canvasY size (first 8%nat)) (startDrawing s))) in *.
  set (t1 := snd (applySmoothing cfg (canvasX size (first 8%nat))
                    (canvasY size (first 8%nat)) (startDrawing s))) in *.
  assert (Hafter : forall frames,
             Forall (fun h => isFist h = false) frames ->
             drawingCanvas (after (first :: frames))
             = drawingCanvas s
               ++ Dot q1 (dotRadius cfg) (contextFor cfg)
                  :: segments (contextFor cfg) q1
                       (smoothAll cfg
                          (map (indexTip size) (filter (isDrawGesture size) frames)) t1)
             /\ isDrawingRef (after (first :: frames)) = true).
  { intros frames Hframes. unfold after. rewrite fold_single_hand_frames.
    cbn [fold_left].
    destruct (continue_stroke frames _ t1 q1 Hdrawing Hnew Hlast Hfilter Hframes)
      as [Hcanvas Hflag].
    split; [| exact Hflag]. rewrite Hcanvas, Hink, <- app_assoc. reflexivity. }
  assert (Hdrawn : drawn = first :: filter (isDrawGesture size) rest).
  { unfold drawn, hands. cbn [filter]. rewrite Hdraw. reflexivity. }
  assert (Hpoints : points
                    = q1 :: smoothAll cfg
                              (map (indexTip size) (filter (isDrawGesture size) rest)) t1).
  { unfold points. rewrite Hdrawn. reflexivity. }
  assert (Hops : ink = Dot q1 (dotRadius cfg) (contextFor cfg)
                       :: segments (contextFor cfg) q1
                            (smoothAll cfg
                               (map (indexTip size) (filter (isDrawGesture size) rest))
                               t1)).
  { unfold ink. rewrite Hpoints. reflexivity. }
  destruct (segments_counts (contextFor cfg)
              (smoothAll cfg (map (indexTip size) (filter (isDrawGesture size) rest)) t1)
              q1) as [Hdots Hsegs].
  split.
  { intros k Hk. destruct k as [| k]; [lia|]. unfold hands. cbn [firstn].
    apply Hafter.
    rewrite <- (firstn_skipn k rest) in Hrest. apply Forall_app in Hrest.
    exact (proj1 Hrest). }
  split; [rewrite Hdrawn; cbn; lia|].
  split; [unfold points; rewrite smoothAll_length, length_map; reflexivity|].
  split; [rewrite Hops; exact (proj1 (Hafter rest Hrest))|].
  split.
  { rewrite Hops. unfold countDots in *. cbn. rewrite Hdots. reflexivity. }
  split.
  { rewrite Hops, Hdrawn. unfold countSegments in *. cbn. rewrite Hsegs.
    rewrite smoothAll_length, length_map. lia. }
  split.
  { intros p Hp. rewrite Hpoints in Hp. cbn in Hp. injection Hp as <-.
    rewrite Hops. reflexivity. }
  intros k p q Hp Hq. rewrite Hops. cbn [nth_error].
  rewrite Hpoints in Hp, Hq. apply segments_nth; assumption.
Qed.

End Stroke.

(** C6 on a pinch, an open hand and a pinch again at a fresh component:
    three frames that leave it drawing, two of them with the gesture, one
    dot and one segment. *)
Lemma stroke_with_open_frame_witness :
  let hands := [pinchAt 0.5 0.5; openAt 0.55 0.5; pinchAt 0.6 0.5] in
  let s' := fold_left (handleMediaPipeResults canvas defaults)
                      (map (fun h => [h]) hands) initialState in
  isDrawingRef s' = true
  /\ drawingCanvas s'
     = strokeOps defaults
         (smoothAll defaults
            (map (indexTip canvas) [pinchAt 0.5 0.5; pinchAt 0.6 0.5])
            (startDrawing initialState))
  /\ countDots (drawingCanvas s') = 1%nat
  /\ countSegments (drawingCanvas s') = 1%nat.
Proof.
  intros hands s'.
  assert (Hall : Forall (fun h => isFist h = false) hands).
  { repeat constructor; apply isFist_apartAt. }
  destruct (stroke_commits_follow_gesture_frames canvas defaults initialState
              (pinchAt 0.5 0.5) [openAt 0.55 0.5; pinchAt 0.6 0.5]
              eq_refl (isDrawGesture_pinchAt 0.5 0.5) Hall)
    as [Hflag [_ [_ [Hink [Hdots [Hsegs _]]]]]].
  cbn [filter] in Hink, Hdots, Hsegs.
  rewrite isDrawGesture_pinchAt, isDrawGesture_openAt, isDrawGesture_pinchAt
    in Hink, Hdots, Hsegs.
  change (drawingCanvas initialState) with (@nil InkOp) in Hink.
  rewrite app_nil_l in Hink.
  split; [exact (Hflag 3%nat ltac:(lia))|].
  split; [exact Hink|].
  unfold s', hands. rewrite Hink. split; [exact Hdots | exact Hsegs].
Defined.

(** ** Frames *)

Lemma handleHand_eq (size : CanvasSize) (cfg : Settings) (s : State) (landmarks : Hand) :
  handleHand size cfg s landmarks
  = if isFist landmarks then clearDrawingCanvas (beforeFistCheck size cfg s landmarks)
    else beforeFistCheck size cfg s landmarks.
Proof. reflexivity. Qed.

Lemma handleMediaPipeResults_last (size : CanvasSize) (cfg : Settings) (s : State)
  (before : list Hand) (landmarks : Hand) :
  handleMediaPipeResults size cfg s (before ++ [landmarks])
  = handleHand size cfg (handleMediaPipeResults size cfg s before) landmarks.
Proof. unfold handleMediaPipeResults. rewrite fold_left_app. reflexivity. Qed.

(** C7.  A frame whose hand (the last of the frame, the only one when a
    single hand is tracked) is classified as a fist ends with the drawing
    canvas empty, the drawing flag false, no last committed point and the
    new-stroke flag set, whatever the pinch distance of that hand and
    whatever was painted earlier in the frame. *)
Theorem fist_frame_clears_and_idles (size : CanvasSize) (cfg : Settings) (s : State)
  (before : list Hand) (landmarks : Hand) :
  isFist landmarks = true ->
  let s' := handleMediaPipeResults size cfg s (before ++ [landmarks]) in
  drawingCanvas s' = []
  /\ isDrawingRef s' = false
  /\ lastPositionRef s' = None
  /\ isNewStrokeRef s' = true.
Proof.
  intros Hfist s'. unfold s'.
  rewrite handleMediaPipeResults_last, handleHand_eq, Hfist.
  repeat split.
Qed.

(** C7 on a hand that pinches and is a fist at once, at a fresh component:
    the dot its pinch commits is wiped in the same frame. *)
Lemma fist_frame_witness :
  let s' := handleMediaPipeResults canvas defaults initialState [fistPinchAt 0.5 0.5] in
  isDrawGesture canvas (fistPinchAt 0.5 0.5) = true
  /\ drawingCanvas s' = []
  /\ isDrawingRef s' = false
  /\ lastPositionRef s' = None
  /\ isNewStrokeRef s' = true.
Proof.
  split; [apply isDrawGesture_fistPinchAt|].
  apply (fist_frame_clears_and_idles canvas defaults initialState [] (fistPinchAt 0.5 0.5)).
  apply isFist_fistPinchAt. lra.
Defined.

(** C8.  Clearing twice in a row leaves the state, drawing canvas
    included, exactly as clearing once does; and the result of a clear does
    not depend on what the drawing canvas held, so clearing an empty canvas
    and clearing a painted one cannot be told apart. *)
Theorem clearDrawingCanvas_idempotent (s : State) :
  clearDrawingCanvas (clearDrawingCanvas s) = clearDrawingCanvas s
  /\ drawingCanvas (clearDrawingCanvas s) = []
  /\ (forall ink : list InkOp,
        clearDrawingCanvas (set_drawingCanvas ink s)
        = clearDrawingCanvas (set_drawingCanvas [] s)).
Proof. repeat split. Qed.

(** ** The cursor *)

Lemma cursorCanvas_applySmoothing (cfg : Settings) (x y : R) (s : State) :
  cursorCanvas (snd (applySmoothing cfg x y s)) = cursorCanvas s.
Proof. unfold applySmoothing. cbn. destruct (lastSmoothedPositionRef s); reflexivity. Qed.

Lemma cursorCanvas_drawOnCanvas (cfg : Settings) (x y : R) (s : State) :
  cursorCanvas (drawOnCanvas cfg x y s) = cursorCanvas s.
Proof.
  unfold drawOnCanvas.
  pose proof (cursorCanvas_applySmoothing cfg x y s) as H.
  destruct (applySmoothing cfg x y s) as [p s1]. cbn in H.
  destruct (isNewStrokeRef s1); [exact H|].
  destruct (lastPositionRef s1); [|exact H].
  destruct (isDrawingRef s1); exact H.
Qed.

Lemma cursorCanvas_clearExistingTimeout (s : State) :
  cursorCanvas (clearExistingTimeout s) = cursorCanvas s.
Proof. unfold clearExistingTimeout. destruct (drawingStateTimeoutRef s); reflexivity. Qed.

Lemma cursorCanvas_switchState (cfg : Settings) (draw : bool) (x y : R) (s : State) :
  cursorCanvas (switchState cfg draw x y s) = cursorCanvas s.
Proof.
  unfold switchState. destruct draw.
  - destruct (isDrawingRef s) eqn:Hd; cbn [negb].
    + rewrite Hd. apply cursorCanvas_drawOnCanvas.
    + destruct (startDrawing_cells s) as [Sd _]. rewrite Sd.
      rewrite cursorCanvas_drawOnCanvas. unfold startDrawing. cbn.
      apply cursorCanvas_clearExistingTimeout.
  - destruct (isDrawingRef s); [|reflexivity].
    unfold scheduleStop, setTimeout. cbn. apply cursorCanvas_clearExistingTimeout.
Qed.

(** C9, as the code has it.  A frame with a hand empties the cursor canvas
    and redraws it from the drawing flag as the frame finds it, before the
    frame's own state switch: nothing when the flag is already set, and
    otherwise the ring (radius 15, or 20 in eraser mode) with its centre
    dot at the raw index-tip position.  What the cursor canvas held before
    plays no part. *)
Theorem cursor_follows_flag_on_entry (size : CanvasSize) (cfg : Settings) (s : State)
  (landmarks : Hand) :
  cursorCanvas (handleMediaPipeResults size cfg s [landmarks])
  = if isDrawingRef s then [] else hoverCursor cfg (indexTip size landmarks).
Proof.
  change (handleMediaPipeResults size cfg s [landmarks])
    with (handleHand size cfg s landmarks).
  rewrite handleHand_eq.
  assert (H : cursorCanvas (beforeFistCheck size cfg s landmarks)
              = if isDrawingRef s then [] else hoverCursor cfg (indexTip size landmarks)).
  { unfold beforeFistCheck. rewrite cursorCanvas_switchState.
    unfold drawCursor. destruct (isDrawingRef s); reflexivity. }
  destruct (isFist landmarks); exact H.
Qed.

(** The cells a clear sets and the cells it leaves alone. *)
Lemma clearDrawingCanvas_cells (s : State) :
  isDrawingRef (clearDrawingCanvas s) = false
  /\ smoothingPointsRef (clearDrawingCanvas s) = []
  /\ lastSmoothedPositionRef (clearDrawingCanvas s) = lastSmoothedPositionRef s
  /\ velocityRef (clearDrawingCanvas s) = velocityRef s
  /\ drawingStateTimeoutRef (clearDrawingCanvas s) = drawingStateTimeoutRef s
  /\ pendingTimeouts (clearDrawingCanvas s) = pendingTimeouts s.
Proof. repeat split. Qed.

(** ** The filter at the start and at the end of a stroke *)

(** With an empty buffer and no previous output the filter returns its
    input as it is. *)
Lemma applySmoothing_after_reset (cfg : Settings) (x y : R) (s : State) :
  (1 <= smoothingLevel cfg)%nat ->
  smoothingPointsRef s = [] -> lastSmoothedPositionRef s = None ->
  fst (applySmoothing cfg x y s) = mkPoint x y.
Proof.
  intros Hlevel Hbuf Hlast. unfold applySmoothing. cbn. rewrite Hbuf, Hlast. cbn.
  rewrite pushBounded_room by (cbn; lia). cbn. f_equal; field.
Qed.

(** The timeout callback resets the three cells of the filter. *)
Lemma stopDrawing_resets_filter (s : State) :
  smoothingPointsRef (stopDrawing s) = []
  /\ lastSmoothedPositionRef (stopDrawing s) = None
  /\ velocityRef (stopDrawing s) = mkPoint 0 0.
Proof. repeat split. Qed.

(** The start of a stroke empties the buffer only. *)
Lemma startDrawing_keeps_momentum (s : State) :
  smoothingPointsRef (startDrawing s) = []
  /\ lastSmoothedPositionRef (startDrawing s) = lastSmoothedPositionRef s
  /\ velocityRef (startDrawing s) = velocityRef s.
Proof.
  destruct (startDrawing_cells s) as [_ [_ [_ [Hb [Hl [Hv _]]]]]].
  repeat split; assumption.
Qed.

(** ** The pending timeout *)

Lemma pendingTimeouts_applySmoothing (cfg : Settings) (x y : R) (s : State) :
  pendingTimeouts (snd (applySmoothing cfg x y s)) = pendingTimeouts s.
Proof. unfold applySmoothing. cbn. destruct (lastSmoothedPositionRef s); reflexivity. Qed.

Lemma pendingTimeouts_drawOnCanvas (cfg : Settings) (x y : R) (s : State) :
  pendingTimeouts (drawOnCanvas cfg x y s) = pendingTimeouts s.
Proof.
  unfold drawOnCanvas.
  pose proof (pendingTimeouts_applySmoothing cfg x y s) as H.
  destruct (applySmoothing cfg x y s) as [p s1]. cbn in H.
  destruct (isNewStrokeRef s1); [exact H|].
  destruct (lastPositionRef s1); [|exact H].
  destruct (isDrawingRef s1); exact H.
Qed.

(** A frame with the draw gesture that finds the component drawing does
    not touch the pending timeouts: a stop scheduled by an earlier frame
    stays scheduled. *)
Lemma draw_frame_keeps_pending_timeouts (size : CanvasSize) (cfg : Settings) (s : State)
  (landmarks : Hand) :
  isDrawingRef s = true -> isDrawGesture size landmarks = true ->
  pendingTimeouts (beforeFistCheck size cfg s landmarks) = pendingTimeouts s.
Proof.
  intros Hdrawing Hdraw. unfold beforeFistCheck. rewrite Hdraw, Hdrawing.
  unfold switchState.
  destruct (entry_cells cfg (canvasX size (landmarks 8%nat)) (canvasY size (landmarks 8%nat))
              (distance size landmarks) true s)
    as [_ [Edrawing [_ [_ [_ [Epending _]]]]]].
  rewrite Edrawing, Hdrawing. cbn [negb]. rewrite Edrawing, Hdrawing.
  rewrite pendingTimeouts_drawOnCanvas. exact Epending.
Qed.

(** ** Runs on sample inputs *)

(** Evaluates a run over the sample hands: the gestures of the hands are
    rewritten to their values, then the state functions are unfolded; the
    real-number expressions are left as they stand. *)
Ltac eval_frames :=
  cbv beta iota zeta delta [run step fold_left handleMediaPipeResults];
  rewrite ?handleHand_eq; unfold beforeFistCheck;
  rewrite ?isFist_pinchAt, ?isFist_openAt, ?isFist_fistPinchAt by lra;
  rewrite ?isDrawGesture_pinchAt, ?isDrawGesture_openAt, ?isDrawGesture_fistPinchAt;
  cbv beta iota zeta delta
    [switchState startDrawing scheduleStop setTimeout clearTimeout clearExistingTimeout
     stopDrawing clearDrawingCanvas drawCursor drawOnCanvas applySmoothing pushBounded
     paint contextFor dotRadius advance fireDue initialState defaults canvas
     set_lastPositionRef set_isDrawingRef set_smoothingPointsRef
     set_drawingStateTimeoutRef set_lastDistanceRef set_isNewStrokeRef
     set_lastSmoothedPositionRef set_velocityRef setIsDrawing set_drawingCanvas
     set_cursorCanvas set_pendingTimeouts set_nextTimeoutId set_clock
     lastPositionRef isDrawingRef smoothingPointsRef drawingStateTimeoutRef
     lastDistanceRef isNewStrokeRef lastSmoothedPositionRef velocityRef isDrawing
     drawingCanvas cursorCanvas pendingTimeouts nextTimeoutId clock
     brushSize brushColor smoothingLevel eraserMode width height px py
     sumX sumY canvasX canvasY pinchAt openAt apartAt fistPinchAt handOf lx ly lz
     fold_left length app tl filter negb fst snd Nat.ltb Nat.leb Nat.eqb Nat.max Nat.add
     hoverCursor indexTip INR].

(** Closes an equation between evaluated states' cells, number by number. *)
Ltac same_numbers := repeat (reflexivity || lra || f_equal).

(** C2 at a failing input.  A stroke is under way at canvas position
    (100, 350) when the Clear Canvas button is pressed; the next frame
    pinches at (200, 350).  That frame starts a new stroke, yet the filter
    still holds the last smoothed position of the old one, and the first
    point of the new stroke is committed at (206, 350), not at the raw
    position (200, 350). *)
Theorem stroke_start_after_clear_keeps_momentum :
  let s1 := run canvas defaults
              [OnResults 0 [pinchAt 0.9 0.5]; ClearCanvasClick 10] initialState in
  let s2 := step canvas defaults s1 (OnResults 33 [pinchAt 0.8 0.5]) in
  isDrawingRef s1 = false
  /\ lastSmoothedPositionRef s1 = Some (mkPoint 100 350)
  /\ indexTip canvas (pinchAt 0.8 0.5) = mkPoint 200 350
  /\ isDrawingRef s2 = true
  /\ smoothingPointsRef s2 = [mkPoint 200 350]
  /\ velocityRef s2 = mkPoint 30 0
  /\ drawingCanvas s2 = [Dot (mkPoint 206 350) (5 / 2) (contextFor defaults)].
Proof.
  eval_frames. repeat split; same_numbers.
Qed.

(** C5 at failing inputs.  First run: a pinch at 0 ms, one frame without
    the gesture at 10 ms, the pinch back at 20 ms.  The stroke goes on, but
    the timeout set at 10 ms is still pending and fires at 40 ms: the
    component goes idle and the filter and session are reset although the
    gesture was away for 10 ms only, and the pinch frame at 50 ms begins a
    second stroke with a dot of its own.  Second run: after the pinch at
    0 ms the hand stays open in frames 10 ms apart; every frame replaces
    the timeout, and at 40 ms, the gesture gone for 30 ms, the component is
    still drawing. *)
Theorem flicker_frame_still_stops_stroke :
  let flicker := [OnResults 0 [pinchAt 0.5 0.5]; OnResults 10 [openAt 0.5 0.5];
                  OnResults 20 [pinchAt 0.5 0.5]] in
  let s3 := run canvas defaults flicker initialState in
  let s4 := step canvas defaults s3 (Wait 40) in
  let s5 := step canvas defaults s4 (OnResults 50 [pinchAt 0.5 0.5]) in
  let held := [OnResults 0 [pinchAt 0.5 0.5]; OnResults 10 [openAt 0.5 0.5];
               OnResults 20 [openAt 0.5 0.5]; OnResults 30 [openAt 0.5 0.5];
               OnResults 40 [openAt 0.5 0.5]] in
  (isDrawingRef s3 = true /\ pendingTimeouts s3 = [(1, 40)]%nat
   /\ countDots (drawingCanvas s3) = 1%nat /\ countSegments (drawingCanvas s3) = 1%nat)
  /\ (isDrawingRef s4 = false /\ isNewStrokeRef s4 = true /\ lastPositionRef s4 = None
      /\ smoothingPointsRef s4 = [] /\ lastSmoothedPositionRef s4 = None
      /\ pendingTimeouts s4 = [])
  /\ (countDots (drawingCanvas s5) = 2%nat /\ countSegments (drawingCanvas s5) = 1%nat)
  /\ (isDrawingRef (run canvas defaults held initialState) = true
      /\ pendingTimeouts (run canvas defaults held initialState) = [(4, 70)]%nat).
Proof.
  eval_frames. repeat split.
Qed.

(** C6 fails on a frame of the debounce window.  A pinch at 0 ms, an open
    hand at 10 ms and a pinch at 20 ms are three frames in a row that all
    leave the component drawing, and the timeout set at 10 ms has not fired
    by 20 ms, so nothing stops the stroke; yet the canvas holds one dot and
    one segment, not the two segments three frames would need. *)
Lemma open_frame_in_stroke_commits_nothing :
  let e1 := OnResults 0 [pinchAt 0.5 0.5] in
  let e2 := OnResults 10 [openAt 0.55 0.5] in
  let e3 := OnResults 20 [pinchAt 0.6 0.5] in
  let s3 := run canvas defaults [e1; e2; e3] initialState in
  isDrawingRef (run canvas defaults [e1] initialState) = true
  /\ isDrawingRef (run canvas defaults [e1; e2] initialState) = true
  /\ isDrawingRef s3 = true
  /\ pendingTimeouts s3 = [(1, 40)]%nat
  /\ countDots (drawingCanvas s3) = 1%nat
  /\ countSegments (drawingCanvas s3) = 1%nat
  /\ countSegments (drawingCanvas s3) <> (3 - 1)%nat.
Proof.
  eval_frames. repeat split. discriminate.
Qed.

(** C9 fails on the first frame of a stroke: a pinch reaching a fresh
    component leaves it drawing, and the cursor canvas of that frame holds
    the ring and the dot. *)
Lemma cursor_shown_on_first_stroke_frame :
  let s' := handleMediaPipeResults canvas defaults initialState [pinchAt 0.5 0.5] in
  isDrawingRef s' = true
  /\ countDots (drawingCanvas s') = 1%nat
  /\ cursorCanvas s' = hoverCursor defaults (indexTip canvas (pinchAt 0.5 0.5))
  /\ cursorCanvas s' <> [].
Proof.
  eval_frames. repeat split. discriminate.
Qed.

(** C10.  Every clear, by fist or by button, runs [clearDrawingCanvas],
    which sets the drawing flag to false and empties the smoothing buffer
    but keeps the last smoothed position, the velocity, the timeout handle
    and the pending timeouts.  Two runs show what follows.  In the first a
    hand that pinches as a fist at (100, 350) is followed by a pinch at
    (200, 350): the stroke that starts right after the clear commits its
    first point at (206, 350), carried by the position remembered from
    before the clear.  In the second a timeout set at 10 ms survives the
    clear at 20 ms and fires at 40 ms, discarding the smoothed position. *)
Theorem clear_keeps_filter_momentum_and_timer (size : CanvasSize) (cfg : Settings)
  (s : State) (t : nat) (landmarks : Hand) :
  (step size cfg s (ClearCanvasClick t) = clearDrawingCanvas (advance t s)
   /\ handleHand size cfg s landmarks
      = if isFist landmarks
        then clearDrawingCanvas (beforeFistCheck size cfg s landmarks)
        else beforeFistCheck size cfg s landmarks)
  /\ (isDrawingRef (clearDrawingCanvas s) = false
      /\ smoothingPointsRef (clearDrawingCanvas s) = []
      /\ lastSmoothedPositionRef (clearDrawingCanvas s) = lastSmoothedPositionRef s
      /\ velocityRef (clearDrawingCanvas s) = velocityRef s
      /\ drawingStateTimeoutRef (clearDrawingCanvas s) = drawingStateTimeoutRef s
      /\ pendingTimeouts (clearDrawingCanvas s) = pendingTimeouts s)
  /\ (let s1 := run canvas defaults [OnResults 0 [fistPinchAt 0.9 0.5]] initialState in
      let s2 := step canvas defaults s1 (OnResults 33 [pinchAt 0.8 0.5]) in
      drawingCanvas s1 = [] /\ isDrawingRef s1 = false
      /\ lastSmoothedPositionRef s1 = Some (mkPoint 100 350)
      /\ indexTip canvas (pinchAt 0.8 0.5) = mkPoint 200 350
      /\ drawingCanvas s2 = [Dot (mkPoint 206 350) (5 / 2) (contextFor defaults)])
  /\ (let s3 := run canvas defaults
                  [OnResults 0 [pinchAt 0.5 0.5]; OnResults 10 [openAt 0.5 0.5];
                   ClearCanvasClick 20] initialState in
      let s4 := step canvas defaults s3 (Wait 40) in
      pendingTimeouts s3 = [(1, 40)]%nat
      /\ lastSmoothedPositionRef s3 = Some (mkPoint 500 350)
      /\ pendingTimeouts s4 = []
      /\ lastSmoothedPositionRef s4 = None).
Proof.
  split; [split; reflexivity|].
  split; [apply clearDrawingCanvas_cells|].
  split.
  - eval_frames. repeat split; same_numbers.
  - eval_frames. repeat split; same_numbers.
Qed.

(** * Further properties of the code *)

(** ** The filter on a run of calls *)

Lemma applySmoothing_buffer (cfg : Settings) (x y : R) (s : State) :
  smoothingPointsRef (snd (applySmoothing cfg x y s))
  = pushBounded (smoothingLevel cfg) (smoothingPointsRef s) (mkPoint x y).
Proof.
  unfold applySmoothing. cbn. destruct (lastSmoothedPositionRef s); reflexivity.
Qed.

Lemma applySmoothing_stores_output (cfg : Settings) (x y : R) (s : State) :
  lastSmoothedPositionRef (snd (applySmoothing cfg x y s))
  = Some (fst (applySmoothing cfg x y s)).
Proof.
  unfold applySmoothing. cbn. destruct (lastSmoothedPositionRef s); reflexivity.
Qed.

Lemma pushBounded_length_exact (level : nat) (points : list Point) (p : Point) :
  length (pushBounded level points p)
  = if (level <=? length points)%nat then length points else S (length points).
Proof.
  unfold pushBounded. rewrite length_app. cbn [length].
  destruct (Nat.ltb_spec level (length points + 1));
    destruct (Nat.leb_spec level (length points)); try lia.
  - destruct points as [| q rest]; cbn; [cbn in *; lia|].
    rewrite length_app. cbn. lia.
  - rewrite length_app. cbn. lia.
Qed.

Lemma smoothState_buffer_length (cfg : Settings) (raws : list Point) :
  forall s : State,
    (smoothingLevel cfg <= length (smoothingPointsRef s))%nat ->
    length (smoothingPointsRef (smoothState cfg raws s)) = length (smoothingPointsRef s).
Proof.
  induction raws as [| p rest IH]; intros s Hle; cbn [smoothState]; [reflexivity|].
  assert (Hstep : length (smoothingPointsRef (snd (applySmoothing cfg (px p) (py p) s)))
                  = length (smoothingPointsRef s)).
  { rewrite applySmoothing_buffer, pushBounded_length_exact.
    destruct (Nat.leb_spec (smoothingLevel cfg) (length (smoothingPointsRef s)));
      [reflexivity | lia]. }
  rewrite IH; [exact Hstep | rewrite Hstep; exact Hle].
Qed.

(** X3.  The buffer of the filter never shrinks: once it holds at least
    [smoothingLevel] points, every call replaces the oldest point by the
    new one and the length stays what it was.  So after the level is
    lowered below the number of buffered points, the filter keeps averaging
    over the old, longer window on every further call of the stroke. *)
Theorem buffer_keeps_its_length (cfg : Settings) (raws : list Point) (s : State) :
  (smoothingLevel cfg <= length (smoothingPointsRef s))%nat ->
  length (smoothingPointsRef (smoothState cfg raws s)) = length (smoothingPointsRef s)
  /\ (forall p, raws = [p] -> smoothingPointsRef s <> [] ->
                smoothingPointsRef (smoothState cfg raws s)
                = tl (smoothingPointsRef s) ++ [p]).
Proof.
  intro Hle. split; [apply smoothState_buffer_length; exact Hle|].
  intros p -> Hne. cbn [smoothState]. rewrite applySmoothing_buffer.
  unfold pushBounded. rewrite length_app. cbn [length].
  destruct (Nat.ltb_spec (smoothingLevel cfg) (length (smoothingPointsRef s) + 1));
    [| lia].
  destruct p as [x y]. cbn [px py].
  destruct (smoothingPointsRef s); [contradiction Hne; reflexivity | reflexivity].
Qed.

(** X3 on a window of three points under a level lowered to one: two more
    calls leave three points in the buffer. *)
Lemma buffer_keeps_its_length_witness :
  let cfg := mkSettings 5 "#ffffff" 1%nat false in
  let s := set_smoothingPointsRef [mkPoint 1 1; mkPoint 2 2; mkPoint 3 3] initialState in
  length (smoothingPointsRef (smoothState cfg [mkPoint 4 4; mkPoint 5 5] s)) = 3%nat.
Proof.
  intros cfg s.
  apply (proj1 (buffer_keeps_its_length cfg [mkPoint 4 4; mkPoint 5 5] s
                  ltac:(cbn; lia))).
Defined.

(** X1.  A stroke that starts while the filter holds no previous output,
    as it does on a fresh component and after the stop timeout has fired,
    commits its first point exactly at the raw index-tip position, and
    that position becomes the filter's last output. *)
Theorem first_point_is_raw_after_full_reset (size : CanvasSize) (cfg : Settings)
  (s : State) (landmarks : Hand) :
  (1 <= smoothingLevel cfg)%nat ->
  isDrawingRef s = false ->
  lastSmoothedPositionRef s = None ->
  isDrawGesture size landmarks = true -> isFist landmarks = false ->
  let s' := handleMediaPipeResults size cfg s [landmarks] in
  drawingCanvas s'
  = drawingCanvas s ++ [Dot (indexTip size landmarks) (dotRadius cfg) (contextFor cfg)]
  /\ lastPositionRef s' = Some (indexTip size landmarks)
  /\ lastSmoothedPositionRef s' = Some (indexTip size landmarks).
Proof.
  intros Hlevel Hidle Hnone Hdraw Hopen s'.
  destruct (handleHand_start size cfg s landmarks Hidle Hdraw Hopen)
    as [Hink [_ [_ [Hlast [_ [Hsmoothed _]]]]]].
  destruct (startDrawing_cells s) as [_ [_ [_ [Hbuf [Hkeep _]]]]].
  assert (Hraw : fst (applySmoothing cfg (px (indexTip size landmarks))
                        (py (indexTip size landmarks)) (startDrawing s))
                 = indexTip size landmarks).
  { apply applySmoothing_after_reset; [exact Hlevel | exact Hbuf |].
    rewrite Hkeep. exact Hnone. }
  cbv zeta in Hink, Hlast, Hsmoothed. rewrite Hraw in Hink, Hlast.
  change (handleMediaPipeResults size cfg s [landmarks])
    with (handleHand size cfg s landmarks) in s'.
  split; [exact Hink|]. split; [exact Hlast|].
  unfold s'. rewrite Hsmoothed, applySmoothing_stores_output. f_equal. exact Hraw.
Qed.

(** ** Reachable states *)

Lemma run_reachable (size : CanvasSize) (maxLevel : nat) (cfg : Settings)
  (events : list Event) :
  (smoothingLevel cfg <= maxLevel)%nat ->
  forall s, reachable size maxLevel s -> reachable size maxLevel (run size cfg events s).
Proof.
  intro Hlevel. unfold run.
  induction events as [| e rest IH]; intros s Hs; cbn [fold_left]; [exact Hs|].
  apply IH. apply reachable_step; assumption.
Qed.

(** A property of the fresh component that time, hand frames and clears
    keep holds in every reachable state. *)
Lemma reachable_invariant (size : CanvasSize) (maxLevel : nat) (P : State -> Prop) :
  P initialState ->
  (forall s t, P s -> P (advance t s)) ->
  (forall s cfg landmarks,
      (smoothingLevel cfg <= maxLevel)%nat -> P s -> P (handleHand size cfg s landmarks)) ->
  (forall s, P s -> P (clearDrawingCanvas s)) ->
  forall s, reachable size maxLevel s -> P s.
Proof.
  intros Hinit Htime Hhand Hclear s Hs.
  induction Hs as [| s cfg e _ IH Hlevel]; [exact Hinit|].
  destruct e as [t hands | t | t]; cbn [step].
  - unfold handleMediaPipeResults.
    assert (Hstart : P (advance t s)) by (apply Htime; exact IH).
    generalize dependent (advance t s). clear IH.
    induction hands as [| h rest IHh]; intros s0 Hs0; cbn [fold_left]; [exact Hs0|].
    apply IHh. apply Hhand; assumption.
  - apply Hclear. apply Htime. exact IH.
  - apply Htime. exact IH.
Qed.

(** The cells [drawOnCanvas] leaves alone. *)
Lemma drawOnCanvas_untouched (cfg : Settings) (x y : R) (s : State) :
  drawingStateTimeoutRef (drawOnCanvas cfg x y s) = drawingStateTimeoutRef s
  /\ pendingTimeouts (drawOnCanvas cfg x y s) = pendingTimeouts s
  /\ nextTimeoutId (drawOnCanvas cfg x y s) = nextTimeoutId s
  /\ clock (drawOnCanvas cfg x y s) = clock s
  /\ isDrawingRef (drawOnCanvas cfg x y s) = isDrawingRef s
  /\ isDrawing (drawOnCanvas cfg x y s) = isDrawing s.
Proof.
  unfold drawOnCanvas, applySmoothing. cbn.
  destruct (lastSmoothedPositionRef s); cbn;
    destruct (isNewStrokeRef s); cbn; try (repeat split; fail);
    destruct (lastPositionRef s); cbn; try (repeat split; fail);
    destruct (isDrawingRef s) eqn:Hd; cbn; repeat split; exact Hd.
Qed.

(** The cursor redraw and the distance cell change two cells only. *)
Lemma entry_untouched (cfg : Settings) (x y d : R) (b : bool) (s : State) :
  let s2 := set_lastDistanceRef d (drawCursor cfg x y b s) in
  drawingStateTimeoutRef s2 = drawingStateTimeoutRef s
  /\ pendingTimeouts s2 = pendingTimeouts s
  /\ clock s2 = clock s
  /\ isDrawingRef s2 = isDrawingRef s
  /\ isDrawing s2 = isDrawing s
  /\ isNewStrokeRef s2 = isNewStrokeRef s
  /\ lastPositionRef s2 = lastPositionRef s
  /\ smoothingPointsRef s2 = smoothingPointsRef s
  /\ drawingCanvas s2 = drawingCanvas s.
Proof. unfold drawCursor. destruct b; cbn; repeat split. Qed.

(** *** The pending timeout *)

Lemma oneTimeout_cleared (s : State) :
  oneTimeout s -> pendingTimeouts (clearExistingTimeout s) = [].
Proof.
  intros [Hnone | [id [due [Hone [Href _]]]]]; unfold clearExistingTimeout.
  - destruct (drawingStateTimeoutRef s); [| exact Hnone].
    unfold clearTimeout. cbn. rewrite Hnone. reflexivity.
  - rewrite Href. unfold clearTimeout. cbn. rewrite Hone. cbn.
    rewrite Nat.eqb_refl. reflexivity.
Qed.

Lemma oneTimeout_same (s s' : State) :
  pendingTimeouts s' = pendingTimeouts s ->
  drawingStateTimeoutRef s' = drawingStateTimeoutRef s ->
  (clock s <= clock s')%nat ->
  oneTimeout s -> oneTimeout s'.
Proof.
  intros Hp Hr Hc [Hnone | [id [due [Hone [Href Hdue]]]]].
  - left. congruence.
  - right. exists id, due. repeat split; try congruence. lia.
Qed.

Lemma oneTimeout_advance (s : State) (t : nat) : oneTimeout s -> oneTimeout (advance t s).
Proof.
  intros [Hnone | [id [due [Hone [Href Hdue]]]]]; unfold advance.
  - rewrite Hnone. cbn [fireDue]. left. exact Hnone.
  - rewrite Hone. cbn [fireDue]. destruct (Nat.leb_spec due t).
    + left. cbn. rewrite Hone. cbn. rewrite Nat.eqb_refl. reflexivity.
    + right. exists id, due. cbn. repeat split; [exact Hone | exact Href | lia].
Qed.

Lemma oneTimeout_switchState (cfg : Settings) (draw : bool) (x y : R) (s : State) :
  oneTimeout s -> oneTimeout (switchState cfg draw x y s).
Proof.
  intro Hs. unfold switchState. destruct draw.
  - assert (Hstart : oneTimeout (if negb (isDrawingRef s) then startDrawing s else s)).
    { destruct (isDrawingRef s); cbn [negb]; [exact Hs|].
      left. unfold startDrawing. cbn. apply oneTimeout_cleared. exact Hs. }
    destruct (isDrawingRef (if negb (isDrawingRef s) then startDrawing s else s));
      [| exact Hstart].
    destruct (drawOnCanvas_untouched cfg x y
                (if negb (isDrawingRef s) then startDrawing s else s))
      as [Hr [Hp [_ [Hc _]]]].
    apply (oneTimeout_same _ _ Hp Hr); [rewrite Hc; lia | exact Hstart].
  - destruct (isDrawingRef s); [| exact Hs].
    right. exists (nextTimeoutId (clearExistingTimeout s)),
             (clock (clearExistingTimeout s) + 30)%nat.
    unfold scheduleStop, setTimeout. cbn.
    rewrite (oneTimeout_cleared s Hs). repeat split. lia.
Qed.

Lemma oneTimeout_handleHand (size : CanvasSize) (cfg : Settings) (s : State)
  (landmarks : Hand) :
  oneTimeout s -> oneTimeout (handleHand size cfg s landmarks).
Proof.
  intro Hs. rewrite handleHand_eq.
  assert (Hbefore : oneTimeout (beforeFistCheck size cfg s landmarks)).
  { unfold beforeFistCheck. apply oneTimeout_switchState.
    destruct (entry_untouched cfg (canvasX size (landmarks 8%nat))
                (canvasY size (landmarks 8%nat)) (distance size landmarks)
                (isDrawingRef s) s) as [Hr [Hp [Hc _]]].
    apply (oneTimeout_same _ _ Hp Hr); [rewrite Hc; lia | exact Hs]. }
  destruct (isFist landmarks); [| exact Hbefore].
  apply (oneTimeout_same (beforeFistCheck size cfg s landmarks)); try reflexivity.
  exact Hbefore.
Qed.

Lemma oneTimeout_reachable (size : CanvasSize) (maxLevel : nat) (s : State) :
  reachable size maxLevel s -> oneTimeout s.
Proof.
  apply reachable_invariant.
  - left. reflexivity.
  - intros s0 t. apply oneTimeout_advance.
  - intros s0 cfg landmarks _. apply oneTimeout_handleHand.
  - intros s0 Hs0.
    apply (oneTimeout_same s0); try reflexivity. exact Hs0.
Qed.

Lemma scheduleStop_pending (s : State) :
  oneTimeout s ->
  exists id, pendingTimeouts (scheduleStop s) = [(id, (clock s + 30)%nat)].
Proof.
  intro Hs. exists (nextTimeoutId (clearExistingTimeout s)).
  unfold scheduleStop, setTimeout. cbn. rewrite (oneTimeout_cleared s Hs).
  unfold clearExistingTimeout. destruct (drawingStateTimeoutRef s); reflexivity.
Qed.

(** X5.  In every reachable state at most one timeout is pending; if one
    is, it is the one whose id the handle [drawingStateTimeoutRef] holds,
    and it is due no later than 30 ms from now. *)
Theorem at_most_one_pending_timeout (size : CanvasSize) (maxLevel : nat) (s : State) :
  reachable size maxLevel s -> oneTimeout s.
Proof. apply oneTimeout_reachable. Qed.

(** What the timeout callback and the clock keep, time keeps. *)
Lemma advance_invariant (P : State -> Prop) :
  (forall s id, P s -> P (stopDrawing (clearTimeout id s))) ->
  (forall s c, P s -> P (set_clock c s)) ->
  forall s t, P s -> P (advance t s).
Proof.
  intros Hfire Hclock s t Hs. unfold advance. apply Hclock.
  generalize (pendingTimeouts s). intro pending. revert s Hs.
  induction pending as [| [id due] rest IH]; intros s Hs; cbn [fireDue]; [exact Hs|].
  destruct (due <=? t)%nat; apply IH; [apply Hfire|]; exact Hs.
Qed.

Lemma scheduleStop_untouched (s : State) :
  isDrawingRef (scheduleStop s) = isDrawingRef s
  /\ isDrawing (scheduleStop s) = isDrawing s
  /\ isNewStrokeRef (scheduleStop s) = isNewStrokeRef s
  /\ lastPositionRef (scheduleStop s) = lastPositionRef s
  /\ smoothingPointsRef (scheduleStop s) = smoothingPointsRef s
  /\ drawingCanvas (scheduleStop s) = drawingCanvas s.
Proof.
  unfold scheduleStop, setTimeout, clearExistingTimeout.
  destruct (drawingStateTimeoutRef s); cbn; repeat split.
Qed.

(** *** The session cells *)

Lemma sessionOk_same (s s' : State) :
  isDrawingRef s' = isDrawingRef s -> isDrawing s' = isDrawing s ->
  isNewStrokeRef s' = isNewStrokeRef s -> lastPositionRef s' = lastPositionRef s ->
  smoothingPointsRef s' = smoothingPointsRef s ->
  sessionOk s -> sessionOk s'.
Proof.
  unfold sessionOk. intros -> -> -> -> ->. exact (fun H => H).
Qed.

Lemma sessionOk_switchState (cfg : Settings) (draw : bool) (x y : R) (s : State) :
  sessionOk s -> sessionOk (switchState cfg draw x y s).
Proof.
  intro Hs. unfold switchState. destruct draw.
  - set (s1 := if negb (isDrawingRef s) then startDrawing s else s).
    assert (H1 : isDrawingRef s1 = true /\ isDrawing s1 = true).
    { unfold s1. destruct (isDrawingRef s) eqn:Hd; cbn [negb].
      - split; [exact Hd | apply Hs; exact Hd].
      - unfold startDrawing, clearExistingTimeout.
        destruct (drawingStateTimeoutRef s); split; reflexivity. }
    destruct H1 as [Hd1 Hstate1]. rewrite Hd1.
    destruct (drawOnCanvas_effect cfg x y s1) as [_ [Hnew [Hlast _]]].
    destruct (drawOnCanvas_untouched cfg x y s1) as [_ [_ [_ [_ [Hd Hstate]]]]].
    unfold sessionOk. cbv zeta in Hlast. rewrite Hnew, Hlast, Hd, Hstate, Hd1, Hstate1.
    repeat split; try discriminate. eexists. reflexivity.
  - destruct (isDrawingRef s) eqn:Hd; [| exact Hs].
    destruct (scheduleStop_untouched s) as [H1 [H2 [H3 [H4 [H5 _]]]]].
    apply (sessionOk_same s); assumption.
Qed.

Lemma sessionOk_clearDrawingCanvas (s : State) : sessionOk (clearDrawingCanvas s).
Proof. unfold sessionOk. cbn. repeat split; discriminate. Qed.

Lemma sessionOk_handleHand (size : CanvasSize) (cfg : Settings) (s : State)
  (landmarks : Hand) :
  sessionOk s -> sessionOk (handleHand size cfg s landmarks).
Proof.
  intro Hs. rewrite handleHand_eq.
  destruct (isFist landmarks); [apply sessionOk_clearDrawingCanvas|].
  unfold beforeFistCheck. apply sessionOk_switchState.
  destruct (entry_untouched cfg (canvasX size (landmarks 8%nat))
              (canvasY size (landmarks 8%nat)) (distance size landmarks)
              (isDrawingRef s) s) as [_ [_ [_ [H1 [H2 [H3 [H4 [H5 _]]]]]]]].
  apply (sessionOk_same s); assumption.
Qed.

(** X6.  In every reachable state the session cells agree with the
    drawing flag: while the flag is false the next point will open a new
    stroke, no point is remembered and the smoothing buffer is empty; and
    whenever the new-stroke flag is clear the flag is set and a last
    committed point exists, so that [drawOnCanvas] never has to fall back
    on its third case (lines 129-135).  The React state [isDrawing] is true
    whenever the flag is. *)
Theorem session_cells_agree (size : CanvasSize) (maxLevel : nat) (s : State) :
  reachable size maxLevel s ->
  (isDrawingRef s = false ->
   isNewStrokeRef s = true /\ lastPositionRef s = None /\ smoothingPointsRef s = [])
  /\ (isNewStrokeRef s = false ->
      isDrawingRef s = true /\ exists p, lastPositionRef s = Some p)
  /\ (isDrawingRef s = true -> isDrawing s = true).
Proof.
  change (reachable size maxLevel s -> sessionOk s).
  apply reachable_invariant.
  - unfold sessionOk. cbn. repeat split; discriminate.
  - apply advance_invariant.
    + intros s0 id _. unfold sessionOk. cbn. repeat split; discriminate.
    + intros s0 c Hs0. apply (sessionOk_same s0); try reflexivity. exact Hs0.
  - intros s0 cfg landmarks _. apply sessionOk_handleHand.
  - intros s0 _. apply sessionOk_clearDrawingCanvas.
Qed.

(** *** Polylines *)

Lemma chained_app (ops more : list InkOp) :
  forall pen, chained pen (ops ++ more)
              <-> chained pen ops /\ chained (penAfter pen ops) more.
Proof.
  induction ops as [| op rest IH]; intro pen; cbn [app chained penAfter fold_left].
  - tauto.
  - destruct op as [c r ctx | from to ctx]; cbn [endPoint].
    + apply IH.
    + rewrite IH. unfold penAfter. tauto.
Qed.

Lemma penAfter_app (ops : list InkOp) (op : InkOp) (pen : option Point) :
  penAfter pen (ops ++ [op]) = Some (endPoint op).
Proof. unfold penAfter. rewrite fold_left_app. reflexivity. Qed.

Lemma inkOk_same (s s' : State) :
  drawingCanvas s' = drawingCanvas s ->
  (lastPositionRef s' = lastPositionRef s \/ lastPositionRef s' = None) ->
  inkOk s -> inkOk s'.
Proof.
  unfold inkOk. intros -> [-> | ->] [Hchain Hlast]; split; try assumption.
  intros p Hp. discriminate Hp.
Qed.

Lemma inkOk_drawOnCanvas (cfg : Settings) (x y : R) (s : State) :
  inkOk s -> inkOk (drawOnCanvas cfg x y s).
Proof.
  intros [Hchain Hlast].
  destruct (drawOnCanvas_effect cfg x y s) as [Hink [_ [Hpos _]]].
  cbv zeta in Hink, Hpos. unfold inkOk. rewrite Hink, Hpos. split.
  - apply chained_app. split; [exact Hchain|].
    destruct (isNewStrokeRef s); [exact I|].
    destruct (lastPositionRef s) as [last |]; [| exact I].
    destruct (isDrawingRef s); [| exact I].
    cbn. split; [apply Hlast; reflexivity | exact I].
  - intros p Hp. rewrite penAfter_app. rewrite <- Hp.
    destruct (isNewStrokeRef s); [reflexivity|].
    destruct (lastPositionRef s); [| reflexivity].
    destruct (isDrawingRef s); reflexivity.
Qed.

Lemma inkOk_switchState (cfg : Settings) (draw : bool) (x y : R) (s : State) :
  inkOk s -> inkOk (switchState cfg draw x y s).
Proof.
  intro Hs. unfold switchState. destruct draw.
  - assert (Hstart : inkOk (if negb (isDrawingRef s) then startDrawing s else s)).
    { destruct (isDrawingRef s); cbn [negb]; [exact Hs|].
      destruct (startDrawing_cells s) as [_ [_ [Hlast [_ [_ [_ Hink]]]]]].
      apply (inkOk_same s); [exact Hink | right; exact Hlast | exact Hs]. }
    destruct (isDrawingRef (if negb (isDrawingRef s) then startDrawing s else s));
      [apply inkOk_drawOnCanvas|]; exact Hstart.
  - destruct (isDrawingRef s); [| exact Hs].
    destruct (scheduleStop_untouched s) as [_ [_ [_ [Hlast [_ Hink]]]]].
    apply (inkOk_same s); [exact Hink | left; exact Hlast | exact Hs].
Qed.

Lemma inkOk_handleHand (size : CanvasSize) (cfg : Settings) (s : State)
  (landmarks : Hand) :
  inkOk s -> inkOk (handleHand size cfg s landmarks).
Proof.
  intro Hs. rewrite handleHand_eq.
  destruct (isFist landmarks).
  - unfold inkOk. cbn. split; [exact I | discriminate].
  - unfold beforeFistCheck. apply inkOk_switchState.
    destruct (entry_untouched cfg (canvasX size (landmarks 8%nat))
                (canvasY size (landmarks 8%nat)) (distance size landmarks)
                (isDrawingRef s) s) as [_ [_ [_ [_ [_ [_ [Hlast [_ Hink]]]]]]]].
    apply (inkOk_same s); [exact Hink | left; exact Hlast | exact Hs].
Qed.

(** X7.  In every state reached by hand frames, timeouts and clears the
    drawing canvas is a sequence of polylines: it never begins with a
    segment, every segment starts exactly where the paint operation before
    it ended, and the last committed point, when there is one, is the end
    of the last operation on the canvas.  (Test Draw, which paints a
    segment of its own, is not among these events.) *)
Theorem canvas_is_made_of_polylines (size : CanvasSize) (maxLevel : nat) (s : State) :
  reachable size maxLevel s ->
  chained None (drawingCanvas s)
  /\ (forall p, lastPositionRef s = Some p -> penAfter None (drawingCanvas s) = Some p).
Proof.
  change (reachable size maxLevel s -> inkOk s).
  apply reachable_invariant.
  - unfold inkOk. cbn. split; [exact I | discriminate].
  - apply advance_invariant.
    + intros s0 id Hs0. apply (inkOk_same s0); [reflexivity | right; reflexivity | exact Hs0].
    + intros s0 c Hs0. apply (inkOk_same s0); [reflexivity | left; reflexivity | exact Hs0].
  - intros s0 cfg landmarks _. apply inkOk_handleHand.
  - intros s0 _. unfold inkOk. cbn. split; [exact I | discriminate].
Qed.

Lemma sampleRun_reachable : reachable canvas 10 sampleRun.
Proof.
  unfold sampleRun. apply run_reachable; [cbn; lia | apply reachable_initial].
Qed.

(** X5 on the sample run: the timeout set by the open-hand frame is the
    only one pending. *)
Lemma at_most_one_pending_timeout_witness :
  oneTimeout sampleRun /\ pendingTimeouts sampleRun = [(1, 40)]%nat.
Proof.
  split.
  - exact (at_most_one_pending_timeout canvas 10 sampleRun sampleRun_reachable).
  - unfold sampleRun. eval_frames. reflexivity.
Defined.

(** X6 on the sample run, which is still drawing. *)
Lemma session_cells_agree_witness :
  isDrawingRef sampleRun = true /\ isDrawing sampleRun = true.
Proof.
  assert (Hd : isDrawingRef sampleRun = true) by (unfold sampleRun; eval_frames; reflexivity).
  split; [exact Hd|].
  exact (proj2 (proj2 (session_cells_agree canvas 10 sampleRun sampleRun_reachable)) Hd).
Defined.

(** X7 on the sample run. *)
Lemma canvas_is_made_of_polylines_witness : chained None (drawingCanvas sampleRun).
Proof.
  exact (proj1 (canvas_is_made_of_polylines canvas 10 sampleRun sampleRun_reachable)).
Defined.

(** *** The smoothing buffer *)

Lemma buffer_bound_drawOnCanvas (maxLevel : nat) (cfg : Settings) (x y : R) (s : State) :
  (smoothingLevel cfg <= maxLevel)%nat ->
  (length (smoothingPointsRef s) <= maxLevel)%nat ->
  (length (smoothingPointsRef (drawOnCanvas cfg x y s)) <= maxLevel)%nat.
Proof.
  intros Hlevel Hs.
  destruct (drawOnCanvas_effect cfg x y s) as [_ [_ [_ [Hbuf _]]]].
  rewrite Hbuf, applySmoothing_buffer, pushBounded_length_exact.
  destruct (Nat.leb_spec (smoothingLevel cfg) (length (smoothingPointsRef s))); lia.
Qed.

Lemma buffer_bound_switchState (maxLevel : nat) (cfg : Settings) (draw : bool) (x y : R)
  (s : State) :
  (smoothingLevel cfg <= maxLevel)%nat ->
  (length (smoothingPointsRef s) <= maxLevel)%nat ->
  (length (smoothingPointsRef (switchState cfg draw x y s)) <= maxLevel)%nat.
Proof.
  intros Hlevel Hs. unfold switchState. destruct draw.
  - assert (Hstart : (length (smoothingPointsRef
                                (if negb (isDrawingRef s) then startDrawing s else s))
                      <= maxLevel)%nat).
    { destruct (isDrawingRef s); cbn [negb]; [exact Hs|].
      destruct (startDrawing_cells s) as [_ [_ [_ [Hbuf _]]]]. rewrite Hbuf. cbn. lia. }
    destruct (isDrawingRef (if negb (isDrawingRef s) then startDrawing s else s));
      [apply buffer_bound_drawOnCanvas|]; assumption.
  - destruct (isDrawingRef s); [| exact Hs].
    destruct (scheduleStop_untouched s) as [_ [_ [_ [_ [Hbuf _]]]]].
    rewrite Hbuf. exact Hs.
Qed.

(** X8.  As long as the smoothing level never exceeds [maxLevel] (10 on
    the page's slider), the smoothing buffer never holds more than
    [maxLevel] points, in any reachable state, however the level is
    changed between events. *)
Theorem buffer_never_exceeds_max_level (size : CanvasSize) (maxLevel : nat) (s : State) :
  reachable size maxLevel s ->
  (length (smoothingPointsRef s) <= maxLevel)%nat.
Proof.
  apply (reachable_invariant size maxLevel
           (fun s => (length (smoothingPointsRef s) <= maxLevel)%nat)).
  - cbn. lia.
  - apply advance_invariant.
    + intros s0 id _. cbn. lia.
    + intros s0 c Hs0. exact Hs0.
  - intros s0 cfg landmarks Hlevel Hs0. rewrite handleHand_eq.
    destruct (isFist landmarks); [cbn; lia|].
    unfold beforeFistCheck. apply buffer_bound_switchState; [exact Hlevel|].
    destruct (entry_untouched cfg (canvasX size (landmarks 8%nat))
                (canvasY size (landmarks 8%nat)) (distance size landmarks)
                (isDrawingRef s0) s0) as [_ [_ [_ [_ [_ [_ [_ [Hbuf _]]]]]]]].
    rewrite Hbuf. exact Hs0.
  - intros s0 _. cbn. lia.
Qed.

(** X8 on the sample run. *)
Lemma buffer_never_exceeds_max_level_witness :
  (length (smoothingPointsRef sampleRun) <= 10)%nat.
Proof.
  exact (buffer_never_exceeds_max_level canvas 10 sampleRun sampleRun_reachable).
Defined.

(** X1 on the state a finished stroke leaves: a pinch, an open hand, the
    timeout, and then a pinch at canvas position (200, 350). *)
Lemma first_point_is_raw_after_full_reset_witness :
  let s := run canvas defaults
             [OnResults 0 [pinchAt 0.9 0.5]; OnResults 10 [openAt 0.9 0.5]; Wait 40]
             initialState in
  lastSmoothedPositionRef
    (handleMediaPipeResults canvas defaults s [pinchAt 0.8 0.5])
  = Some (indexTip canvas (pinchAt 0.8 0.5)).
Proof.
  intro s.
  apply (first_point_is_raw_after_full_reset canvas defaults s (pinchAt 0.8 0.5)).
  - cbn. lia.
  - unfold s. eval_frames. reflexivity.
  - unfold s. eval_frames. reflexivity.
  - apply isDrawGesture_pinchAt.
  - apply isFist_pinchAt.
Defined.

(** ** Time *)

Lemma clock_advance (s : State) (t : nat) : clock (advance t s) = Nat.max (clock s) t.
Proof. reflexivity. Qed.

Lemma canvases_advance (s : State) (t : nat) :
  drawingCanvas (advance t s) = drawingCanvas s
  /\ cursorCanvas (advance t s) = cursorCanvas s.
Proof.
  apply (advance_invariant
           (fun s' => drawingCanvas s' = drawingCanvas s
                      /\ cursorCanvas s' = cursorCanvas s)).
  - intros s0 id Hs0. exact Hs0.
  - intros s0 c Hs0. exact Hs0.
  - split; reflexivity.
Qed.

(** X13.  Time alone never paints or erases: whatever timeouts fire
    between two events, the drawing canvas, the cursor canvas and the
    picture [saveCanvasAsImage] would produce stay what they were. *)
Theorem time_never_touches_the_canvases (s : State) (t : nat) :
  drawingCanvas (advance t s) = drawingCanvas s
  /\ cursorCanvas (advance t s) = cursorCanvas s
  /\ saveCanvasAsImage (advance t s) = saveCanvasAsImage s.
Proof.
  destruct (canvases_advance s t) as [Hink Hcursor].
  repeat split; try assumption.
  unfold saveCanvasAsImage. rewrite Hink. reflexivity.
Qed.

(** X9.  The stop does happen.  When a frame without the draw gesture
    (and without a fist) reaches a reachable state that is still drawing,
    and nothing else arrives during the next 30 ms, the timeout fires: the
    drawing flags are false, the session is fresh, the three cells of the
    filter are reset, no timeout is pending, and the drawing canvas is
    what it was. *)
Theorem stroke_stops_after_30ms_of_silence (size : CanvasSize) (maxLevel : nat)
  (cfg : Settings) (s : State) (landmarks : Hand) (t t' : nat) :
  reachable size maxLevel s ->
  isDrawingRef (advance t s) = true ->
  isDrawGesture size landmarks = false -> isFist landmarks = false ->
  (Nat.max (clock s) t + 30 <= t')%nat ->
  let s' := run size cfg [OnResults t [landmarks]; Wait t'] s in
  isDrawingRef s' = false /\ isDrawing s' = false
  /\ isNewStrokeRef s' = true /\ lastPositionRef s' = None
  /\ smoothingPointsRef s' = [] /\ lastSmoothedPositionRef s' = None
  /\ velocityRef s' = mkPoint 0 0
  /\ pendingTimeouts s' = []
  /\ drawingCanvas s' = drawingCanvas s.
Proof.
  intros Hreach Hdrawing Hdraw Hopen Hlate s'.
  pose proof (oneTimeout_advance s t (oneTimeout_reachable size maxLevel s Hreach))
    as Hone.
  destruct (canvases_advance s t) as [Hink _].
  pose proof (clock_advance s t) as Hclock.
  set (s1 := advance t s) in *.
  unfold s', run. cbn [fold_left step handleMediaPipeResults]. fold s1.
  rewrite handleHand_eq, Hopen. unfold beforeFistCheck. rewrite Hdraw.
  set (s2 := set_lastDistanceRef _ _).
  destruct (entry_untouched cfg (canvasX size (landmarks 8%nat))
              (canvasY size (landmarks 8%nat)) (distance size landmarks)
              (isDrawingRef s1) s1) as [Hr [Hp [Hc [Hd [_ [_ [_ [_ Hi]]]]]]]].
  fold s2 in Hr, Hp, Hc, Hd, Hi.
  assert (Hone2 : oneTimeout s2)
    by (apply (oneTimeout_same s1 s2 Hp Hr); [rewrite Hc; lia | exact Hone]).
  unfold switchState. rewrite Hd, Hdrawing.
  destruct (scheduleStop_pending s2 Hone2) as [id Hpending].
  destruct (scheduleStop_untouched s2) as [_ [_ [_ [_ [_ Hi3]]]]].
  set (s3 := scheduleStop s2) in *. clearbody s3.
  unfold advance. rewrite Hpending. cbn [fireDue].
  destruct (Nat.leb_spec (clock s2 + 30) t') as [_ | Hearly];
    [| rewrite Hc, Hclock in Hearly; lia].
  cbn. rewrite Hpending. cbn. rewrite Nat.eqb_refl. cbn.
  repeat split. rewrite Hi3, Hi. exact Hink.
Qed.

(** X9 on the sample: a stroke in progress, an open hand at 10 ms, nothing
    until 40 ms. *)
Lemma stroke_stops_after_30ms_of_silence_witness :
  let s := run canvas defaults [OnResults 0 [pinchAt 0.5 0.5]] initialState in
  isDrawingRef (run canvas defaults [OnResults 10 [openAt 0.5 0.5]; Wait 40] s) = false.
Proof.
  intro s.
  apply (stroke_stops_after_30ms_of_silence canvas 10 defaults s (openAt 0.5 0.5) 10 40).
  - unfold s. apply run_reachable; [cbn; lia | apply reachable_initial].
  - unfold s. eval_frames. reflexivity.
  - apply isDrawGesture_openAt.
  - apply isFist_openAt.
  - unfold s. eval_frames. cbn. lia.
Defined.

(** ** Unmounting *)

(** X11.  Unmounting a component in a reachable state leaves no timeout
    pending, so that no stop callback runs on the unmounted component:
    from then on time changes the clock only. *)
Theorem unmount_cancels_every_timeout (size : CanvasSize) (maxLevel : nat) (s : State) :
  reachable size maxLevel s ->
  pendingTimeouts (cleanupTimeouts s) = []
  /\ (forall t, advance t (cleanupTimeouts s)
                = set_clock (Nat.max (clock s) t) (cleanupTimeouts s)).
Proof.
  intro Hreach.
  pose proof (oneTimeout_reachable size maxLevel s Hreach) as Hone.
  pose proof (oneTimeout_cleared s Hone) as Hnone.
  split; [exact Hnone|].
  intro t. unfold advance, cleanupTimeouts. rewrite Hnone. cbn [fireDue].
  unfold clearExistingTimeout. destruct (drawingStateTimeoutRef s); reflexivity.
Qed.

(** X11 on the sample run, whose timeout is pending when it unmounts. *)
Lemma unmount_cancels_every_timeout_witness :
  pendingTimeouts sampleRun = [(1, 40)]%nat
  /\ pendingTimeouts (cleanupTimeouts sampleRun) = [].
Proof.
  split.
  - unfold sampleRun. eval_frames. reflexivity.
  - exact (proj1 (unmount_cancels_every_timeout canvas 10 sampleRun sampleRun_reachable)).
Defined.

(** ** What a frame does to the drawing canvas *)

Lemma drawOnCanvas_canvas_local (cfg : Settings) (x y : R) (s : State) :
  exists op, forall ink,
    drawOnCanvas cfg x y (set_drawingCanvas ink s)
    = set_drawingCanvas (ink ++ [op]) (drawOnCanvas cfg x y s).
Proof.
  unfold drawOnCanvas, applySmoothing. cbn.
  destruct (lastSmoothedPositionRef s); cbn;
    destruct (isNewStrokeRef s); cbn; try (eexists; intro; reflexivity);
    destruct (lastPositionRef s); cbn; try (eexists; intro; reflexivity);
    destruct (isDrawingRef s); cbn; eexists; intro; reflexivity.
Qed.

Lemma startDrawing_canvas_local (s : State) (ink : list InkOp) :
  startDrawing (set_drawingCanvas ink s) = set_drawingCanvas ink (startDrawing s).
Proof.
  unfold startDrawing, clearExistingTimeout. cbn.
  destruct (drawingStateTimeoutRef s); reflexivity.
Qed.

Lemma scheduleStop_canvas_local (s : State) (ink : list InkOp) :
  scheduleStop (set_drawingCanvas ink s) = set_drawingCanvas ink (scheduleStop s).
Proof.
  unfold scheduleStop, setTimeout, clearExistingTimeout. cbn.
  destruct (drawingStateTimeoutRef s); reflexivity.
Qed.

Lemma switchState_canvas_local (cfg : Settings) (draw : bool) (x y : R) (s : State) :
  exists ops, (length ops <= 1)%nat
    /\ forall ink,
         switchState cfg draw x y (set_drawingCanvas ink s)
         = set_drawingCanvas (ink ++ ops) (switchState cfg draw x y s).
Proof.
  unfold switchState. destruct draw.
  - change (isDrawingRef (set_drawingCanvas ?i s)) with (isDrawingRef s).
    set (s1 := if negb (isDrawingRef s) then startDrawing s else s).
    assert (H1 : forall ink,
               (if negb (isDrawingRef s) then startDrawing (set_drawingCanvas ink s)
                else set_drawingCanvas ink s) = set_drawingCanvas ink s1).
    { intro ink. unfold s1. destruct (isDrawingRef s); cbn [negb];
        [reflexivity | apply startDrawing_canvas_local]. }
    destruct (isDrawingRef s1) eqn:Hd1.
    + destruct (drawOnCanvas_canvas_local cfg x y s1) as [op Hop].
      exists [op]. split; [cbn; lia|]. intro ink.
      cbn zeta. rewrite H1. change (isDrawingRef (set_drawingCanvas ink s1))
        with (isDrawingRef s1). rewrite Hd1. apply Hop.
    + exists []. split; [cbn; lia|]. intro ink.
      cbn zeta. rewrite H1. change (isDrawingRef (set_drawingCanvas ink s1))
        with (isDrawingRef s1). rewrite Hd1, app_nil_r. reflexivity.
  - exists []. split; [cbn; lia|]. intro ink. rewrite app_nil_r.
    change (isDrawingRef (set_drawingCanvas ink s)) with (isDrawingRef s).
    destruct (isDrawingRef s); [apply scheduleStop_canvas_local | reflexivity].
Qed.

(** The handler never reads the drawing canvas. *)
Lemma handleHand_canvas_local (size : CanvasSize) (cfg : Settings) (s : State)
  (landmarks : Hand) :
  exists ops, (length ops <= 1)%nat
    /\ forall ink,
         handleHand size cfg (set_drawingCanvas ink s) landmarks
         = set_drawingCanvas (if isFist landmarks then [] else ink ++ ops)
             (handleHand size cfg s landmarks).
Proof.
  set (x := canvasX size (landmarks 8%nat)). set (y := canvasY size (landmarks 8%nat)).
  set (entry := set_lastDistanceRef (distance size landmarks)
                  (drawCursor cfg x y (isDrawingRef s) s)).
  destruct (switchState_canvas_local cfg (isDrawGesture size landmarks) x y entry)
    as [ops [Hlen Hops]].
  exists ops. split; [exact Hlen|]. intro ink.
  assert (Hentry : set_lastDistanceRef (distance size landmarks)
                     (drawCursor cfg x y (isDrawingRef (set_drawingCanvas ink s))
                        (set_drawingCanvas ink s))
                   = set_drawingCanvas ink entry).
  { unfold entry, drawCursor. cbn. destruct (isDrawingRef s); reflexivity. }
  rewrite !handleHand_eq. unfold beforeFistCheck. fold x y. rewrite Hentry. fold entry.
  rewrite Hops. destruct (isFist landmarks); reflexivity.
Qed.

Lemma set_drawingCanvas_same (s : State) : set_drawingCanvas (drawingCanvas s) s = s.
Proof. destruct s. reflexivity. Qed.

(** X10.  A hand frame never reads the drawing canvas and paints at most
    one operation: there is a list of at most one operation such that,
    whatever the canvas holds when the frame arrives, the frame leaves the
    canvas empty if the hand is a fist and otherwise appends exactly that
    list, and leaves every other cell of the state the same. *)
Theorem frame_appends_at_most_one_operation (size : CanvasSize) (cfg : Settings)
  (s : State) (landmarks : Hand) :
  exists ops, (length ops <= 1)%nat
    /\ forall ink,
         handleMediaPipeResults size cfg (set_drawingCanvas ink s) [landmarks]
         = set_drawingCanvas (if isFist landmarks then [] else ink ++ ops)
             (handleMediaPipeResults size cfg s [landmarks]).
Proof. apply handleHand_canvas_local. Qed.

(** X14.  The Test Draw button paints one segment, from (50, 50) to
    (200, 200) in the brush's size and colour and always painted over, and
    touches nothing else: a hand frame that follows it does to every cell
    but the canvas what it would have done without it, and appends the same
    operation, after the test segment.  So a stroke interrupted by Test
    Draw goes on from its own last point, not from (200, 200). *)
Theorem testDraw_leaves_the_stroke_alone (size : CanvasSize) (cfg cfg' : Settings)
  (s : State) (landmarks : Hand) :
  let test := Segment (mkPoint 50 50) (mkPoint 200 200)
                (mkContextStyle (brushSize cfg') (brushColor cfg') (brushColor cfg')
                   SourceOver) in
  drawingCanvas (testDraw cfg' s) = drawingCanvas s ++ [test]
  /\ set_drawingCanvas [] (testDraw cfg' s) = set_drawingCanvas [] s
  /\ exists ops, (length ops <= 1)%nat
       /\ drawingCanvas (handleHand size cfg s landmarks)
          = (if isFist landmarks then [] else drawingCanvas s ++ ops)
       /\ drawingCanvas (handleHand size cfg (testDraw cfg' s) landmarks)
          = (if isFist landmarks then [] else drawingCanvas s ++ [test] ++ ops)
       /\ set_drawingCanvas [] (handleHand size cfg (testDraw cfg' s) landmarks)
          = set_drawingCanvas [] (handleHand size cfg s landmarks).
Proof.
  intro test. split; [reflexivity|]. split; [reflexivity|].
  destruct (handleHand_canvas_local size cfg s landmarks) as [ops [Hlen Hops]].
  exists ops. split; [exact Hlen|].
  pose proof (Hops (drawingCanvas s)) as Hplain.
  rewrite set_drawingCanvas_same in Hplain.
  pose proof (Hops (drawingCanvas s ++ [test])) as Htest.
  change (set_drawingCanvas (drawingCanvas s ++ [test]) s) with (testDraw cfg' s) in Htest.
  split; [rewrite Hplain at 1; reflexivity|].
  split.
  - rewrite Htest. cbn. rewrite <- app_assoc. reflexivity.
  - rewrite Htest. reflexivity.
Qed.

(** ** A scheduled stop and the frames that follow it *)

Lemma draw_frame_keeps_drawing (size : CanvasSize) (cfg : Settings) (s : State)
  (landmarks : Hand) :
  isDrawingRef s = true -> isDrawGesture size landmarks = true ->
  isFist landmarks = false ->
  isDrawingRef (handleHand size cfg s landmarks) = true
  /\ pendingTimeouts (handleHand size cfg s landmarks) = pendingTimeouts s.
Proof.
  intros Hdrawing Hdraw Hopen. rewrite handleHand_eq, Hopen.
  split; [| apply draw_frame_keeps_pending_timeouts; assumption].
  unfold beforeFistCheck. rewrite Hdraw.
  destruct (entry_untouched cfg (canvasX size (landmarks 8%nat))
              (canvasY size (landmarks 8%nat)) (distance size landmarks)
              (isDrawingRef s) s) as [_ [_ [_ [Hd _]]]].
  pose proof (eq_trans Hd Hdrawing) as Hd2. clear Hd.
  generalize dependent (set_lastDistanceRef (distance size landmarks)
                          (drawCursor cfg (canvasX size (landmarks 8%nat))
                             (canvasY size (landmarks 8%nat)) (isDrawingRef s) s)).
  intros s2 Hd. unfold switchState. rewrite Hd. cbn [negb]. rewrite Hd.
  rewrite isDrawingRef_drawOnCanvas. exact Hd.
Qed.

(** X15.  A stop that has been scheduled cannot be called off by drawing
    on.  When a timeout is pending while the component draws, frames with
    the draw gesture (and no fist), however many, leave it pending; and
    once its time has come it fires: the drawing flag is false, the last
    committed point is forgotten and the next point will open a new
    stroke. *)
Theorem scheduled_stop_survives_draw_frames (size : CanvasSize) (cfg : Settings)
  (s : State) (hands : list Hand) (id due t : nat) :
  isDrawingRef s = true ->
  pendingTimeouts s = [(id, due)] ->
  Forall (fun h => isDrawGesture size h = true /\ isFist h = false) hands ->
  (due <= t)%nat ->
  let s' := fold_left (handleMediaPipeResults size cfg) (map (fun h => [h]) hands) s in
  isDrawingRef s' = true
  /\ pendingTimeouts s' = [(id, due)]
  /\ isDrawingRef (advance t s') = false
  /\ lastPositionRef (advance t s') = None
  /\ isNewStrokeRef (advance t s') = true
  /\ pendingTimeouts (advance t s') = [].
Proof.
  intros Hdrawing Hpending Hall Hdue s'.
  assert (Hkept : isDrawingRef s' = true /\ pendingTimeouts s' = [(id, due)]).
  { unfold s'. rewrite fold_single_hand_frames. clear s'.
    revert s Hdrawing Hpending.
    induction Hall as [| h rest [Hdraw Hopen] _ IH]; intros s Hdrawing Hpending;
      cbn [fold_left]; [split; assumption|].
    destruct (draw_frame_keeps_drawing size cfg s h Hdrawing Hdraw Hopen) as [Hd Hp].
    apply IH; [exact Hd | rewrite Hp; exact Hpending]. }
  destruct Hkept as [Hd Hp]. split; [exact Hd|]. split; [exact Hp|].
  clearbody s'. unfold advance. rewrite Hp. cbn [fireDue].
  destruct (Nat.leb_spec due t); [| lia].
  cbn. rewrite Hp. cbn. rewrite Nat.eqb_refl. repeat split.
Qed.

(** X15 on the sample run, whose timeout is due at 40 ms: two more pinch
    frames, and at 40 ms the stroke is stopped all the same. *)
Lemma scheduled_stop_survives_draw_frames_witness :
  let s' := fold_left (handleMediaPipeResults canvas defaults)
              (map (fun h => [h]) [pinchAt 0.5 0.5; pinchAt 0.6 0.5]) sampleRun in
  isDrawingRef s' = true /\ isDrawingRef (advance 40 s') = false.
Proof.
  intro s'.
  destruct (scheduled_stop_survives_draw_frames canvas defaults sampleRun
              [pinchAt 0.5 0.5; pinchAt 0.6 0.5] 1 40 40) as [Hd [_ [Hstop _]]].
  - unfold sampleRun. eval_frames. reflexivity.
  - unfold sampleRun. eval_frames. reflexivity.
  - repeat constructor; apply isDrawGesture_pinchAt || apply isFist_pinchAt.
  - lia.
  - split; [exact Hd | exact Hstop].
Defined.

(** ** The stroke style *)

(** The dot that opens a stroke is as wide as the line that continues it:
    its radius is half the line width, in eraser mode (10 and 20) as with
    the brush. *)
Lemma dot_diameter_is_line_width (cfg : Settings) :
  2 * dotRadius cfg = lineWidth (contextFor cfg).
Proof.
  unfold dotRadius, contextFor. destruct (eraserMode cfg); cbn; lra.
Qed.
